(** * Smart-Go-WebCrawler: a shallow embedding of the crawl core

    The development follows the packages of the repository:
    - [models]   (models/models.go): the records passed around;
    - [utils]    (utils): [IsValidURL];
    - [database] (database/postgres.go): the [crawl_queue] and [pages] tables
      and the statements run against them;
    - [crawler]  (crawler/smart.go): link priority, link extraction, the
      content analyzer, the duplicate detector and the crawl loop.

    Go's [int] is a 64-bit integer, modelled as [Z] with the wrap-around
    written out; [float64] is IEEE 754 binary64, modelled by the kernel's
    primitive floats; a Go string is a sequence of bytes, modelled as
    [string]. *)

From Stdlib Require Import ZArith Lia List String Ascii Bool Floats.
From stdpp Require Import gmap strings list sorting.
Import ListNotations.

Set Warnings "-inexact-float,-register-all".
Local Open Scope Z_scope.

(** ** Go integers *)

Module GoInt.

Definition min_int : Z := - 2 ^ 63.
Definition max_int : Z := 2 ^ 63 - 1.

(** Two's complement wrap-around of a 64-bit signed integer. *)
Definition wrap64 (z : Z) : Z := (z + 2 ^ 63) mod 2 ^ 64 - 2 ^ 63.

Definition add (a b : Z) : Z := wrap64 (a + b).
Definition sub (a b : Z) : Z := wrap64 (a - b).

Definition in_range (z : Z) : Prop := min_int <= z <= max_int.

End GoInt.

Infix "+i" := GoInt.add (at level 50, left associativity).
Infix "-i" := GoInt.sub (at level 50, left associativity).

(** ** Go float64 *)

Module GoFloat.

(** What the conversion [int(f)] gives when [f] is NaN, infinite or out of
    the range of [int]: the language leaves it to the implementation, and
    amd64 gives the "integer indefinite" value, the least [int]. *)
Definition int_indefinite : Z := GoInt.min_int.

(** [int(f)]: the fraction is discarded. The mantissa is shifted by the
    exponent, to the right when the exponent is negative. *)
Definition int_of_float64 (f : float) : Z :=
  match Prim2SF f with
  | S754_zero _ => 0
  | S754_finite s m e =>
      let mag := Z.shiftl (Z.pos m) e in
      let v := if s then - mag else mag in
      if (GoInt.min_int <=? v) && (v <=? GoInt.max_int) then v
      else int_indefinite
  | S754_infinity _ | S754_nan => int_indefinite
  end.

(** [float64(n)] for an [int] [n]. *)
Definition float64_of_int (n : Z) : float :=
  if n <? 0 then PrimFloat.opp (PrimFloat.of_uint63 (Uint63.of_Z (- n)))
  else PrimFloat.of_uint63 (Uint63.of_Z n).

(** The exact value of a finite float as a fraction [num / den]. *)
Definition float64_num (f : float) : Z :=
  match Prim2SF f with
  | S754_finite s m e =>
      let n := Z.pos m * 2 ^ Z.max e 0 in if s then - n else n
  | _ => 0
  end.

Definition float64_den (f : float) : Z :=
  match Prim2SF f with
  | S754_finite _ _ e => 2 ^ Z.max (- e) 0
  | _ => 1
  end.

Definition is_finite (f : float) : bool :=
  match Prim2SF f with
  | S754_zero _ | S754_finite _ _ _ => true
  | _ => false
  end.

(** The value of [f] with its fraction discarded (towards zero). *)
Definition trunc_float64 (f : float) : Z :=
  Z.quot (float64_num f) (float64_den f).

(** The value of [f] rounded to the nearest integer, halves away from
    zero: what "round" means in the specification. *)
Definition round_float64 (f : float) : Z :=
  let n := float64_num f in
  let d := float64_den f in
  Z.quot (2 * n + Z.sgn n * d) (2 * d).

(** A float with the sign [sx] that is not a NaN. *)
Definition signed (sx : bool) (r : spec_float) : Prop :=
  match r with
  | S754_zero s | S754_infinity s | S754_finite s _ _ => s = sx
  | S754_nan => False
  end.

End GoFloat.

(** ** Go strings (package strings)

    The functions below are the ones of package [strings] on strings of
    ASCII bytes. [ToLower] and [TrimSpace] of the Go library also map and
    trim runes outside ASCII; bytes of 128 and more are left alone here. *)

Module strings.

Local Open Scope string_scope.
Local Open Scope Z_scope.

Fixpoint HasPrefix (s prefix : string) : bool :=
  match prefix with
  | EmptyString => true
  | String c prefix' =>
      match s with
      | EmptyString => false
      | String d s' => if Ascii.eqb c d then HasPrefix s' prefix' else false
      end
  end.

Fixpoint Contains (s substr : string) : bool :=
  HasPrefix s substr ||
  match s with
  | EmptyString => false
  | String _ s' => Contains s' substr
  end.

Definition lower_byte (c : ascii) : ascii :=
  let n := N_of_ascii c in
  if ((65 <=? n) && (n <=? 90))%N then ascii_of_N (n + 32) else c.

Fixpoint ToLower (s : string) : string :=
  match s with
  | EmptyString => EmptyString
  | String c s' => String (lower_byte c) (ToLower s')
  end.

(** Space, and the bytes 9 to 13: tab, line feed, vertical tab, form feed,
    carriage return. *)
Definition is_space (c : ascii) : bool :=
  let n := N_of_ascii c in
  ((n =? 32) || ((9 <=? n) && (n <=? 13)))%N.

Fixpoint TrimLeft (s : string) : string :=
  match s with
  | EmptyString => EmptyString
  | String c s' => if is_space c then TrimLeft s' else s
  end.

Fixpoint TrimRight (s : string) : string :=
  match s with
  | EmptyString => EmptyString
  | String c s' =>
      match TrimRight s' with
      | EmptyString => if is_space c then EmptyString else String c EmptyString
      | t => String c t
      end
  end.

Definition TrimSpace (s : string) : string := TrimRight (TrimLeft s).

(** [len(s)], an [int]. *)
Definition len (s : string) : Z := Z.of_nat (String.length s).

Fixpoint Repeat (s : string) (count : nat) : string :=
  match count with
  | O => EmptyString
  | S n => s ++ Repeat s n
  end.

End strings.


(** ** HTML documents (package goquery, as far as the crawler uses it) *)

Module goquery.

Local Open Scope string_scope.
Local Open Scope Z_scope.

Inductive Node :=
  | TextNode (data : string)
  | ElementNode (tag : string) (attrs : list (string * string))
      (children : list Node).

(** A document is the list of the children of its document node; a
    selection is a list of nodes, in document order. *)
Definition Document := list Node.
Definition Selection := list Node.

(** The selectors the crawler passes to [Find]. *)
Inductive Selector :=
  | ByTag (tag : string)                       (* p, a, body, title *)
  | ByTagAttr (tag attr : string)              (* a[href] *)
  | ByTagAttrEq (tag attr value : string)      (* meta[name='description'] *)
  | ByClass (class : string)                   (* .breadcrumb *)
  | ByAttrContains (attr sub : string)         (* [class*='share'] *)
  | AnyOf (alternatives : list Selector).      (* h1, h2, h3 *)

(** A node and its descendants, in document order. *)
Fixpoint subtree (n : Node) : list Node :=
  n :: match n with
       | TextNode _ => []
       | ElementNode _ _ children => flat_map subtree children
       end.

Fixpoint nodeText (n : Node) : string :=
  match n with
  | TextNode data => data
  | ElementNode _ _ children =>
      fold_right (fun c acc => nodeText c ++ acc) "" children
  end.

Fixpoint lookup_attr (attrs : list (string * string)) (name : string)
  : option string :=
  match attrs with
  | [] => None
  | (k, v) :: rest => if String.eqb k name then Some v else lookup_attr rest name
  end.

Definition nodeAttr (n : Node) (name : string) : option string :=
  match n with
  | TextNode _ => None
  | ElementNode _ attrs _ => lookup_attr attrs name
  end.

(** The words of a class attribute, separated by spaces. *)
Fixpoint words_aux (s cur : string) : list string :=
  match s with
  | EmptyString => if String.eqb cur "" then [] else [cur]
  | String c s' =>
      if strings.is_space c
      then (if String.eqb cur "" then [] else [cur]) ++ words_aux s' ""
      else words_aux s' (cur ++ String c "")
  end.

Definition words (s : string) : list string := words_aux s "".

Fixpoint matches (sel : Selector) (n : Node) : bool :=
  match n with
  | TextNode _ => false
  | ElementNode tag attrs _ =>
      match sel with
      | ByTag t => String.eqb tag t
      | ByTagAttr t a =>
          String.eqb tag t &&
          match lookup_attr attrs a with Some _ => true | None => false end
      | ByTagAttrEq t a v =>
          String.eqb tag t &&
          match lookup_attr attrs a with
          | Some v' => String.eqb v' v
          | None => false
          end
      | ByClass c =>
          match lookup_attr attrs "class" with
          | Some v => existsb (String.eqb c) (words v)
          | None => false
          end
      | ByAttrContains a sub =>
          match lookup_attr attrs a with
          | Some v => strings.Contains v sub
          | None => false
          end
      | AnyOf alternatives => existsb (fun s => matches s n) alternatives
      end
  end.

(** [doc.Find(selector)]: the matching descendants of the document node. *)
Definition Find (doc : Document) (sel : Selector) : Selection :=
  List.filter (matches sel) (flat_map subtree doc).

(** [sel.Text()]: the text of every node of the selection, concatenated. *)
Definition Text (sel : Selection) : string :=
  fold_right (fun n acc => nodeText n ++ acc) "" sel.

(** [sel.Attr(name)]: the attribute of the first node of the selection. *)
Definition Attr (sel : Selection) (name : string) : option string :=
  match sel with
  | [] => None
  | n :: _ => nodeAttr n name
  end.

(** [sel.Length()]. *)
Definition Length (sel : Selection) : Z := Z.of_nat (List.length sel).

(** [goquery.NewDocumentFromReader], the HTML parser, is outside the
    repository. *)
Class Parser := {
  NewDocumentFromReader : string -> option Document
}.

End goquery.

(** ** Package crypto/md5 *)

Module md5.

(** [fmt.Sprintf("%x", md5.Sum(body))]. *)
Class Package := {
  SumHex : string -> string
}.

End md5.

(** ** models/models.go *)

Module models.

Record URLContext := {
  ContentType : string;
  Importance : float;
  LastModified : Z;
  LinkDensity : float;
  ContentQuality : float;
  SimilarityScore : float
}.

Record URLPriority := {
  URL : string;
  Priority : Z;
  Depth : Z;
  Parent : string;
  Context : URLContext
}.

Record Page := {
  PageURL : string;
  Title : string;
  Content : string;
  StatusCode : Z;
  PageContentType : string;
  Size : Z;
  LoadTime : Z;
  PageDepth : Z;
  ParentURL : string;
  Hash : string;
  PageImportance : float;
  PageContentQuality : float;
  PageLinkDensity : float
}.

(** The zero value of [URLContext]. *)
Definition zeroContext : URLContext :=
  {| ContentType := ""; Importance := 0; LastModified := 0;
     LinkDensity := 0; ContentQuality := 0; SimilarityScore := 0 |}.

End models.

(** ** Package net/url, as an interface

    [url.Parse], [URL.ResolveReference] and [URL.String] belong to the Go
    library; the crawler is stated over any implementation of them. *)

Module url.

Record URL := {
  Scheme : string;
  Host : string;
  Path : string;
  RawQuery : string;
  Fragment : string
}.

Class Package := {
  Parse : string -> option URL;
  ResolveReference : URL -> URL -> URL;
  String : URL -> string
}.

End url.

(** ** utils *)

Module utils.

Local Open Scope string_scope.
Local Open Scope Z_scope.

Definition excludePatterns : list string :=
  [".css"; ".js"; ".png"; ".jpg"; ".jpeg"; ".gif"; ".svg"; ".ico";
   ".pdf"; ".zip"; ".exe"; ".dmg"; "mailto:"; "tel:"].

(** The loop over [excludePatterns]: [false] at the first pattern found. *)
Fixpoint noneExcluded (lowerURL : string) (patterns : list string) : bool :=
  match patterns with
  | [] => true
  | pattern :: rest =>
      if strings.Contains lowerURL pattern then false
      else noneExcluded lowerURL rest
  end.

Definition IsValidURL `{url.Package} (rawURL : string) : bool :=
  if String.eqb rawURL "" then false
  else
    match url.Parse rawURL with
    | None => false
    | Some u =>
        if String.eqb (url.Scheme u) "" || String.eqb (url.Host u) "" then false
        else if negb (String.eqb (url.Scheme u) "http") &&
                negb (String.eqb (url.Scheme u) "https") then false
        else noneExcluded (strings.ToLower rawURL) excludePatterns
    end.

End utils.

(** ** Package sync: the read-write mutex

    The state of a [sync.RWMutex] is the number of readers holding it and
    whether a writer holds it. An operation gives [None] when the call
    cannot complete in this state: [RLock] and [Lock] would block, and
    [RUnlock] and [Unlock] of a mutex that is not locked are fatal errors.
    Writers that wait are not part of the state: Go also holds back a new
    reader while a writer waits, which only removes interleavings in which
    some call blocks. *)

Module sync.

Record RWMutex := { readers : nat; writer : bool }.

Definition unlocked : RWMutex := {| readers := 0; writer := false |}.

Definition RLock (m : RWMutex) : option RWMutex :=
  if writer m then None
  else Some {| readers := S (readers m); writer := false |}.

Definition RUnlock (m : RWMutex) : option RWMutex :=
  match readers m with
  | O => None
  | S n => Some {| readers := n; writer := writer m |}
  end.

Definition Lock (m : RWMutex) : option RWMutex :=
  if writer m then None
  else match readers m with
       | O => Some {| readers := 0; writer := true |}
       | S _ => None
       end.

Definition Unlock (m : RWMutex) : option RWMutex :=
  if writer m then Some {| readers := readers m; writer := false |}
  else None.

End sync.

(** ** database/postgres.go

    The tables [crawl_queue] and [pages], both with a UNIQUE [url] column,
    as finite maps from the url to the other columns. The model is of a
    store that is up: a statement fails only where PostgreSQL rejects its
    values. *)

Module database.

Local Open Scope string_scope.
Local Open Scope Z_scope.

Record QueueRow := {
  priority : Z;
  depth : Z;
  parent_url : string;
  scheduled_at : Z;
  attempts : Z;
  status : string
}.

Record PostgresDB := {
  crawl_queue : gmap string QueueRow;
  pages : gmap string models.Page
}.

Inductive error :=
  | integer_out_of_range
  | negative_limit.

(** The range of the SQL type INTEGER. *)
Definition int4 (z : Z) : bool := (- 2 ^ 31 <=? z) && (z <? 2 ^ 31).

Definition set_priority (p : Z) (r : QueueRow) : QueueRow :=
  {| priority := p; depth := depth r; parent_url := parent_url r;
     scheduled_at := scheduled_at r; attempts := attempts r;
     status := status r |}.

Definition set_status (st : string) (r : QueueRow) : QueueRow :=
  {| priority := priority r; depth := depth r; parent_url := parent_url r;
     scheduled_at := scheduled_at r; attempts := attempts r;
     status := st |}.

(** One execution of the prepared statement of [AddToQueue]:
    INSERT INTO crawl_queue (url, priority, depth, parent_url) VALUES ...
    ON CONFLICT (url) DO UPDATE SET
      priority = GREATEST(crawl_queue.priority, EXCLUDED.priority).
    [now] is CURRENT_TIMESTAMP, the default of [scheduled_at]. *)
Definition upsert (now : Z) (q : gmap string QueueRow)
    (urlPriority : models.URLPriority) : error + gmap string QueueRow :=
  if int4 (models.Priority urlPriority) && int4 (models.Depth urlPriority) then
    inr match q !! models.URL urlPriority with
        | Some row =>
            <[models.URL urlPriority :=
                set_priority
                  (Z.max (priority row) (models.Priority urlPriority)) row]> q
        | None =>
            <[models.URL urlPriority :=
                {| priority := models.Priority urlPriority;
                   depth := models.Depth urlPriority;
                   parent_url := models.Parent urlPriority;
                   scheduled_at := now;
                   attempts := 0;
                   status := "pending" |}]> q
        end
  else inl integer_out_of_range.

(** The loop of [AddToQueue] inside its transaction. *)
Fixpoint execAll (now : Z) (q : gmap string QueueRow)
    (urls : list models.URLPriority) : error + gmap string QueueRow :=
  match urls with
  | [] => inr q
  | urlPriority :: rest =>
      match upsert now q urlPriority with
      | inl err => inl err
      | inr q' => execAll now q' rest
      end
  end.

(** [AddToQueue]: the new database and the error returned. On an error the
    deferred [tx.Rollback] leaves the table as it was. *)
Definition AddToQueue (now : Z) (p : PostgresDB)
    (urls : list models.URLPriority) : PostgresDB * option error :=
  match execAll now (crawl_queue p) urls with
  | inl err => (p, Some err)
  | inr q' => ({| crawl_queue := q'; pages := pages p |}, None)
  end.

(** ORDER BY priority DESC, scheduled_at ASC. *)
Definition queue_order (a b : string * QueueRow) : Prop :=
  priority (snd b) < priority (snd a) \/
  (priority (snd a) = priority (snd b) /\
   scheduled_at (snd a) <= scheduled_at (snd b)).

#[global] Instance queue_order_dec : RelDecision queue_order.
Proof. intros a b. unfold queue_order. apply _. Defined.

Definition pending (kv : string * QueueRow) : bool :=
  String.eqb (status (snd kv)) "pending".

Definition scan (kv : string * QueueRow) : models.URLPriority :=
  {| models.URL := fst kv;
     models.Priority := priority (snd kv);
     models.Depth := depth (snd kv);
     models.Parent := parent_url (snd kv);
     models.Context := models.zeroContext |}.

(** [GetNextURLs]: the rows with status pending, in the order of the
    query, at most [limit] of them. Rows that tie in the order come in the
    order the table yields them, which SQL leaves open. A negative LIMIT is
    an error of the query. *)
Definition GetNextURLs (p : PostgresDB) (limit : Z)
    : error + list models.URLPriority :=
  if limit <? 0 then inl negative_limit
  else
    inr (List.map scan
           (take (Z.to_nat limit)
              (merge_sort queue_order
                 (List.filter pending (map_to_list (crawl_queue p)))))).

(** UPDATE crawl_queue SET status = 'completed' WHERE url = $1. *)
Definition MarkURLProcessed (p : PostgresDB) (url : string) : PostgresDB :=
  {| crawl_queue := alter (set_status "completed") url (crawl_queue p);
     pages := pages p |}.

(** SELECT COUNT( * ) FROM pages WHERE url = $1, compared with 0. *)
Definition IsURLCrawled (p : PostgresDB) (url : string) : bool :=
  match pages p !! url with
  | Some _ => true
  | None => false
  end.

(** [SavePage]: on a conflict every column is replaced but [depth] and
    [parent_url]. *)
Definition SavePage (p : PostgresDB) (page : models.Page) : PostgresDB :=
  let row :=
    match pages p !! models.PageURL page with
    | Some old =>
        {| models.PageURL := models.PageURL page;
           models.Title := models.Title page;
           models.Content := models.Content page;
           models.StatusCode := models.StatusCode page;
           models.PageContentType := models.PageContentType page;
           models.Size := models.Size page;
           models.LoadTime := models.LoadTime page;
           models.PageDepth := models.PageDepth old;
           models.ParentURL := models.ParentURL old;
           models.Hash := models.Hash page;
           models.PageImportance := models.PageImportance page;
           models.PageContentQuality := models.PageContentQuality page;
           models.PageLinkDensity := models.PageLinkDensity page |}
    | None => page
    end in
  {| crawl_queue := crawl_queue p;
     pages := <[models.PageURL page := row]> (pages p) |}.

End database.

(** ** crawler/smart.go *)

Module crawler.

Local Open Scope string_scope.
Local Open Scope Z_scope.

Import models.

(** *** Link priority *)

Definition highPriorityKeywords : list string :=
  ["article"; "news"; "blog"; "content"; "post"; "story"; "research";
   "documentation"].

Definition lowPriorityKeywords : list string :=
  ["login"; "register"; "contact"; "about"; "terms"; "privacy"; "sitemap"].

(** The keyword loops: [delta] is added once, at the first keyword the
    anchor text contains, and the loop ends there. *)
Fixpoint keywordLoop (anchorText : string) (keywords : list string)
    (delta priority : Z) : Z :=
  match keywords with
  | [] => priority
  | keyword :: rest =>
      if strings.Contains (strings.ToLower anchorText) keyword
      then priority +i delta
      else keywordLoop anchorText rest delta priority
  end.

(** The priority before the page importance is added. *)
Definition linkSignals (sel : goquery.Selection) : Z :=
  let priority := 50 in
  let anchorText := strings.TrimSpace (goquery.Text sel) in
  let priority := keywordLoop anchorText highPriorityKeywords 20 priority in
  let priority := keywordLoop anchorText lowPriorityKeywords (-15) priority in
  let priority :=
    match goquery.Attr sel "rel" with
    | Some rel =>
        if strings.Contains rel "nofollow" then priority -i 30 else priority
    | None => priority
    end in
  match goquery.Attr sel "class" with
  | Some class =>
      let priority :=
        if strings.Contains class "nav" || strings.Contains class "menu"
        then priority -i 10 else priority in
      if strings.Contains class "content" || strings.Contains class "article"
      then priority +i 15 else priority
  | None => priority
  end.

Definition calculateLinkPriority (sel : goquery.Selection)
    (pageContext : URLContext) : Z :=
  let priority := linkSignals sel in
  let priority :=
    priority +i GoFloat.int_of_float64 (Importance pageContext * 20)%float in
  let priority := if priority <? 1 then 1 else priority in
  let priority := if 100 <? priority then 100 else priority in
  priority.

Definition relevantTypes : list string :=
  ["text/html"; "application/xhtml+xml"; "text/plain"].

Definition isRelevantContent (contentType : string) : bool :=
  existsb (fun relevantType => strings.Contains contentType relevantType)
    relevantTypes.

Definition guessContentType (url : string) : string :=
  let lower := strings.ToLower url in
  if strings.Contains lower "/blog/" || strings.Contains lower "/article/"
  then "article"
  else if strings.Contains lower "/news/" then "news"
  else if strings.Contains lower "/doc" || strings.Contains lower "/help/"
  then "documentation"
  else "general".

(** *** Link extraction *)

Section Links.
Context `{url.Package}.

Definition makeAbsoluteURL (baseURL href : string) : string :=
  match url.Parse baseURL with
  | None => ""
  | Some base =>
      match url.Parse href with
      | None => ""
      | Some link =>
          let resolved := url.ResolveReference base link in
          if negb (String.eqb (url.Fragment resolved) "") &&
             String.eqb (url.RawQuery resolved) "" &&
             String.eqb (url.Path resolved) (url.Path base)
          then ""
          else url.String resolved
      end
  end.

(** The body of the callback of [Each], for the selection of one anchor:
    the entry it appends, if it appends one. *)
Definition linkOf (baseURL : string) (pageContext : URLContext)
    (parentDepth : Z) (sel : goquery.Selection) : option URLPriority :=
  match goquery.Attr sel "href" with
  | None => None
  | Some href =>
      let absoluteURL := makeAbsoluteURL baseURL href in
      if String.eqb absoluteURL "" || negb (utils.IsValidURL absoluteURL)
      then None
      else
        let priority := calculateLinkPriority sel pageContext in
        let linkContext :=
          {| ContentType := guessContentType absoluteURL;
             Importance := (GoFloat.float64_of_int priority / 100)%float;
             LastModified := 0;
             LinkDensity := LinkDensity pageContext;
             ContentQuality := 0;
             SimilarityScore := 0 |} in
        Some {| URL := absoluteURL;
                Priority := priority;
                Depth := parentDepth +i 1;
                Parent := baseURL;
                Context := linkContext |}
  end.

Definition extractSmartLinks (doc : goquery.Document) (baseURL : string)
    (pageContext : URLContext) (parentDepth : Z) : list URLPriority :=
  omap (fun n => linkOf baseURL pageContext parentDepth [n])
    (goquery.Find doc (goquery.ByTagAttr "a" "href")).

End Links.

(** *** Content analyzer *)

Definition headings : goquery.Selector :=
  goquery.AnyOf [goquery.ByTag "h1"; goquery.ByTag "h2"; goquery.ByTag "h3"].

Definition calculateContentQuality (doc : goquery.Document) (content : string)
    : float :=
  let score := 0%float in
  let textLength :=
    strings.len
      (strings.TrimSpace (goquery.Text (goquery.Find doc (goquery.ByTag "body")))) in
  let score := if 500 <? textLength then (score + 0.3)%float else score in
  let score := if 2000 <? textLength then (score + 0.2)%float else score in
  let score :=
    if 0 <? goquery.Length (goquery.Find doc headings)
    then (score + 0.2)%float else score in
  let score :=
    if 3 <? goquery.Length (goquery.Find doc (goquery.ByTag "p"))
    then (score + 0.2)%float else score in
  let score :=
    if 0 <? goquery.Length
              (goquery.Find doc (goquery.ByTagAttrEq "meta" "name" "description"))
    then (score + 0.1)%float else score in
  if (1.0 <? score)%float then 1.0%float else score.

Definition calculateLinkDensity (doc : goquery.Document) : float :=
  let textLength :=
    strings.len (goquery.Text (goquery.Find doc (goquery.ByTag "body"))) in
  let linkTextLength :=
    strings.len (goquery.Text (goquery.Find doc (goquery.ByTag "a"))) in
  if textLength =? 0 then 0.0%float
  else
    let density :=
      (GoFloat.float64_of_int linkTextLength /
       GoFloat.float64_of_int textLength)%float in
    if (1.0 <? density)%float then 1.0%float else density.

Definition calculateImportance (doc : goquery.Document) (content : string)
    : float :=
  let importance := 0.5%float in
  let title := goquery.Text (goquery.Find doc (goquery.ByTag "title")) in
  let importance :=
    if (10 <? strings.len title) && (strings.len title <? 70)
    then (importance + 0.1)%float else importance in
  let importance :=
    if 0 <? goquery.Length (goquery.Find doc (goquery.ByTag "article"))
    then (importance + 0.2)%float else importance in
  let importance :=
    if 0 <? goquery.Length
              (goquery.Find doc
                 (goquery.AnyOf [goquery.ByTag "nav"; goquery.ByClass "breadcrumb"]))
    then (importance + 0.1)%float else importance in
  let importance :=
    if 0 <? goquery.Length
              (goquery.Find doc
                 (goquery.AnyOf [goquery.ByAttrContains "class" "share";
                                 goquery.ByAttrContains "class" "social"]))
    then (importance + 0.1)%float else importance in
  if (1.0 <? importance)%float then 1.0%float else importance.

Definition AnalyzeContent (doc : goquery.Document) (content : string)
    : URLContext :=
  {| ContentType := "";
     Importance := calculateImportance doc content;
     LastModified := 0;
     LinkDensity := calculateLinkDensity doc;
     ContentQuality := calculateContentQuality doc content;
     SimilarityScore := 0 |}.

(** *** Duplicate detector *)

Record DuplicateDetector := {
  seenHashes : gmap string bool;
  mutex : sync.RWMutex
}.

Definition NewDuplicateDetector : DuplicateDetector :=
  {| seenHashes := ∅; mutex := sync.unlocked |}.

(** [dd.seenHashes[hash]]: [false] for a key that is not in the map. *)
Definition seen (dd : DuplicateDetector) (hash : string) : bool :=
  default false (seenHashes dd !! hash).

(** Code that runs on a detector: it may change the detector, and it may
    fail to complete (see [sync]). *)
Definition DD (A : Type) : Type := DuplicateDetector -> option (A * DuplicateDetector).

Definition ret {A} (a : A) : DD A := fun dd => Some (a, dd).

Definition bind {A B} (m : DD A) (k : A -> DD B) : DD B :=
  fun dd => match m dd with
            | None => None
            | Some (a, dd') => k a dd'
            end.

Notation "'let*' x ':=' m 'in' k" := (bind m (fun x => k))
  (at level 10, x pattern, m at level 100, k at level 200).

Definition onMutex (op : sync.RWMutex -> option sync.RWMutex) : DD unit :=
  fun dd => match op (mutex dd) with
            | None => None
            | Some m => Some (tt, {| seenHashes := seenHashes dd; mutex := m |})
            end.

Definition load (hash : string) : DD bool :=
  fun dd => Some (seen dd hash, dd).

(** [dd.seenHashes[hash] = true]. *)
Definition recorded (dd : DuplicateDetector) (hash : string)
    : DuplicateDetector :=
  {| seenHashes := <[hash := true]> (seenHashes dd); mutex := mutex dd |}.

Definition store (hash : string) : DD unit :=
  fun dd => Some (tt, recorded dd hash).

(** [IsDuplicate], run by one caller with no other caller in between. The
    deferred [RUnlock] runs before each return. *)
Definition IsDuplicate (hash : string) : DD bool :=
  let* _ := onMutex sync.RLock in
  let* found := load hash in
  if found then
    let* _ := onMutex sync.RUnlock in
    ret true
  else
    let* _ := onMutex sync.RUnlock in
    let* _ := onMutex sync.Lock in
    let* _ := store hash in
    let* _ := onMutex sync.Unlock in
    let* _ := onMutex sync.RLock in
    let* _ := onMutex sync.RUnlock in
    ret false.

(** A sequence of calls, one after the other. *)
Fixpoint IsDuplicateAll (hashes : list string) : DD (list bool) :=
  match hashes with
  | [] => ret []
  | hash :: rest =>
      let* b := IsDuplicate hash in
      let* bs := IsDuplicateAll rest in
      ret (b :: bs)
  end.

(** [IsDuplicate] one statement at a time, for callers that interleave.
    A caller is at one of the statements of the function, or has returned. *)
Inductive Point :=
  | AtRLock                 (* dd.mutex.RLock() *)
  | AtLoad                  (* if dd.seenHashes[hash] *)
  | AtReturnTrue            (* return true: the deferred RUnlock *)
  | AtRUnlock               (* dd.mutex.RUnlock() *)
  | AtLock                  (* dd.mutex.Lock() *)
  | AtStore                 (* dd.seenHashes[hash] = true *)
  | AtUnlock                (* dd.mutex.Unlock() *)
  | AtRLockAgain            (* dd.mutex.RLock() *)
  | AtReturnFalse           (* return false: the deferred RUnlock *)
  | Returned (result : bool).

Definition next {A} (pt : Point) (r : option (A * DuplicateDetector))
    : option (Point * DuplicateDetector) :=
  match r with
  | None => None
  | Some (_, dd) => Some (pt, dd)
  end.

(** One statement of the caller at [pt]; [None] when it cannot run now. *)
Definition stepCaller (hash : string) (pt : Point) (dd : DuplicateDetector)
    : option (Point * DuplicateDetector) :=
  match pt with
  | AtRLock => next AtLoad (onMutex sync.RLock dd)
  | AtLoad => Some (if seen dd hash then AtReturnTrue else AtRUnlock, dd)
  | AtReturnTrue => next (Returned true) (onMutex sync.RUnlock dd)
  | AtRUnlock => next AtLock (onMutex sync.RUnlock dd)
  | AtLock => next AtStore (onMutex sync.Lock dd)
  | AtStore => next AtUnlock (store hash dd)
  | AtUnlock => next AtRLockAgain (onMutex sync.Unlock dd)
  | AtRLockAgain => next AtReturnFalse (onMutex sync.RLock dd)
  | AtReturnFalse => next (Returned false) (onMutex sync.RUnlock dd)
  | Returned _ => None
  end.

(** Callers of [IsDuplicate] on one detector: the hash and the point of
    each. A schedule names, step by step, the caller that runs. *)
Definition Callers := list (string * Point).

Definition stepAt (i : nat) (cs : Callers) (dd : DuplicateDetector)
    : option (Callers * DuplicateDetector) :=
  match cs !! i with
  | None => None
  | Some (hash, pt) =>
      match stepCaller hash pt dd with
      | None => None
      | Some (pt', dd') => Some (<[i := (hash, pt')]> cs, dd')
      end
  end.

Fixpoint runSchedule (schedule : list nat) (cs : Callers)
    (dd : DuplicateDetector) : option (Callers * DuplicateDetector) :=
  match schedule with
  | [] => Some (cs, dd)
  | i :: rest =>
      match stepAt i cs dd with
      | None => None
      | Some (cs', dd') => runSchedule rest cs' dd'
      end
  end.

(** *** Crawling one page *)

Record smartCrawlResult := {
  ResultPage : option Page;
  Links : list URLPriority;
  Skipped : bool;
  Reason : string;
  Error : bool
}.

Definition skipped (reason : string) : smartCrawlResult :=
  {| ResultPage := None; Links := []; Skipped := true; Reason := reason;
     Error := false |}.

Definition failed : smartCrawlResult :=
  {| ResultPage := None; Links := []; Skipped := false; Reason := "";
     Error := true |}.

(** What the HTTP client gives for a request: an error, or a response with
    its status code, its Content-Type header and its body, [None] when the
    body cannot be read. *)
Inductive Fetched :=
  | RequestError
  | Response (statusCode : Z) (contentType : string) (body : option string).

Definition set_LastModified (t : Z) (c : URLContext) : URLContext :=
  {| ContentType := ContentType c; Importance := Importance c;
     LastModified := t; LinkDensity := LinkDensity c;
     ContentQuality := ContentQuality c;
     SimilarityScore := SimilarityScore c |}.

Section Page.
Context `{url.Package} `{md5.Package} `{goquery.Parser}.

(** [smartCrawlPage] from [client.Do] on: [fetched] is what the client
    gives, [now] the time and [elapsed] the milliseconds since the start. *)
Definition afterRequest (urlPriority : URLPriority) (fetched : Fetched)
    (now elapsed : Z) : DD smartCrawlResult :=
  match fetched with
  | RequestError => ret failed
  | Response statusCode contentType body =>
      if negb (isRelevantContent contentType)
      then ret (skipped "irrelevant_content_type")
      else
        match body with
        | None => ret failed
        | Some body =>
            let hash := md5.SumHex body in
            let* duplicate := IsDuplicate hash in
            if duplicate then ret (skipped "duplicate_content")
            else
              match goquery.NewDocumentFromReader body with
              | None => ret failed
              | Some doc =>
                  let context :=
                    set_LastModified now (AnalyzeContent doc body) in
                  let page :=
                    {| PageURL := URL urlPriority;
                       Title := goquery.Text (goquery.Find doc (goquery.ByTag "title"));
                       Content := body;
                       StatusCode := statusCode;
                       PageContentType := contentType;
                       Size := strings.len body;
                       LoadTime := elapsed;
                       PageDepth := Depth urlPriority;
                       ParentURL := Parent urlPriority;
                       Hash := hash;
                       PageImportance := 0;
                       PageContentQuality := 0;
                       PageLinkDensity := 0 |} in
                  let links :=
                    extractSmartLinks doc (URL urlPriority) context
                      (Depth urlPriority) in
                  ret {| ResultPage := Some page; Links := links;
                         Skipped := false; Reason := ""; Error := false |}
              end
        end
  end.

Definition smartCrawlPage (db : database.PostgresDB)
    (urlPriority : URLPriority) (fetched : Fetched) (now elapsed : Z)
    : DD smartCrawlResult :=
  if database.IsURLCrawled db (URL urlPriority)
  then ret (skipped "already_crawled")
  else afterRequest urlPriority fetched now elapsed.

End Page.

(** *** Results *)

Record CrawlStats := {
  PagesProcessed : Z;
  PagesSkipped : Z;
  Errors : Z;
  AvgLoadTime : Z;
  TotalSize : Z
}.

Definition zeroStats : CrawlStats :=
  {| PagesProcessed := 0; PagesSkipped := 0; Errors := 0; AvgLoadTime := 0;
     TotalSize := 0 |}.

(** The body of the loop of [processSmartResults], for one result. The
    error of [AddToQueue] is dropped there. *)
Definition processSmartResult (now : Z) (db : database.PostgresDB)
    (stats : CrawlStats) (result : smartCrawlResult)
    : database.PostgresDB * CrawlStats :=
  if Error result then
    (db, {| PagesProcessed := PagesProcessed stats;
            PagesSkipped := PagesSkipped stats;
            Errors := Errors stats +i 1;
            AvgLoadTime := AvgLoadTime stats;
            TotalSize := TotalSize stats |})
  else if Skipped result then
    (db, {| PagesProcessed := PagesProcessed stats;
            PagesSkipped := PagesSkipped stats +i 1;
            Errors := Errors stats;
            AvgLoadTime := AvgLoadTime stats;
            TotalSize := TotalSize stats |})
  else
    match ResultPage result with
    | None => (db, stats)
    | Some page =>
        let db := database.SavePage db page in
        let db :=
          if 0 <? Z.of_nat (List.length (Links result))
          then fst (database.AddToQueue now db (Links result))
          else db in
        let processed := PagesProcessed stats +i 1 in
        let total := TotalSize stats +i Size page in
        (db, {| PagesProcessed := processed;
                PagesSkipped := PagesSkipped stats;
                Errors := Errors stats;
                AvgLoadTime :=
                  if 0 <? processed
                  then GoInt.wrap64 (Z.quot total processed * 1000000)
                  else AvgLoadTime stats;
                TotalSize := total |})
    end.

(** *** The crawl

    [Crawl] runs the refill loop, the workers and the results processor
    side by side. Its state holds the database, the two channels and, for
    each worker, where it stands; a step is one action of one of them.
    Cancellation only stops the crawl and is left out. *)

Record Config := {
  startURL : string;
  maxDepth : Z;
  workers : Z
}.

Inductive Worker :=
  | Idle                               (* waiting on urlQueue *)
  | Received (urlPriority : URLPriority) (* has an entry, before the request *)
  | Fetching (urlPriority : URLPriority) (* the request is out *)
  | Emitted (urlPriority : URLPriority). (* the result is sent *)

Record State := {
  db : database.PostgresDB;
  urlQueue : list URLPriority;
  nextURLs : list URLPriority;
  pool : list Worker;
  results : list smartCrawlResult;
  detector : DuplicateDetector;
  stats : CrawlStats
}.

Definition initialURL (cfg : Config) : URLPriority :=
  {| URL := startURL cfg;
     Priority := 100;
     Depth := 0;
     Parent := "";
     Context := {| ContentType := ""; Importance := 1.0; LastModified := 0;
                   LinkDensity := 0; ContentQuality := 0;
                   SimilarityScore := 0 |} |}.

(** The state when [Crawl] enters its loop: the workers are started, the
    start URL is in the channel and in the queue table. *)
Definition start (cfg : Config) (now : Z) (db0 : database.PostgresDB)
    : State :=
  {| db := fst (database.AddToQueue now db0 [initialURL cfg]);
     urlQueue := [initialURL cfg];
     nextURLs := [];
     pool := replicate (Z.to_nat (workers cfg)) Idle;
     results := [];
     detector := NewDuplicateDetector;
     stats := zeroStats |}.

Definition with_db (d : database.PostgresDB) (s : State) : State :=
  {| db := d; urlQueue := urlQueue s; nextURLs := nextURLs s;
     pool := pool s; results := results s; detector := detector s;
     stats := stats s |}.

Definition with_channel (q next : list URLPriority) (s : State) : State :=
  {| db := db s; urlQueue := q; nextURLs := next;
     pool := pool s; results := results s; detector := detector s;
     stats := stats s |}.

Definition with_worker (i : nat) (w : Worker) (s : State) : State :=
  {| db := db s; urlQueue := urlQueue s; nextURLs := nextURLs s;
     pool := <[i := w]> (pool s); results := results s;
     detector := detector s; stats := stats s |}.

Definition with_result (r : smartCrawlResult) (dd : DuplicateDetector)
    (s : State) : State :=
  {| db := db s; urlQueue := urlQueue s; nextURLs := nextURLs s;
     pool := pool s; results := results s ++ [r];
     detector := dd; stats := stats s |}.

Section Crawl.
Context `{url.Package} `{md5.Package} `{goquery.Parser}.
Variable cfg : Config.

Inductive step : State -> State -> Prop :=
  (* the ticker fires: nextURLs, err := s.db.GetNextURLs(s.workers * 2) *)
  | step_tick s batch :
      nextURLs s = [] ->
      database.GetNextURLs (db s) (GoInt.wrap64 (workers cfg * 2)) = inr batch ->
      step s (with_channel (urlQueue s) batch s)
  (* urlPriority.Depth <= maxDepth: urlQueue <- urlPriority *)
  | step_offer s urlPriority rest :
      nextURLs s = urlPriority :: rest ->
      Depth urlPriority <= maxDepth cfg ->
      (List.length (urlQueue s) < 1000)%nat ->
      step s (with_channel (urlQueue s ++ [urlPriority]) rest s)
  (* otherwise the entry is passed over *)
  | step_pass s urlPriority rest :
      nextURLs s = urlPriority :: rest ->
      maxDepth cfg < Depth urlPriority ->
      step s (with_channel (urlQueue s) rest s)
  (* a worker receives from urlQueue *)
  | step_receive s i urlPriority rest :
      pool s !! i = Some Idle ->
      urlQueue s = urlPriority :: rest ->
      step s (with_worker i (Received urlPriority) (with_channel rest (nextURLs s) s))
  (* smartCrawlPage: the URL is already in pages *)
  | step_skip s i urlPriority :
      pool s !! i = Some (Received urlPriority) ->
      database.IsURLCrawled (db s) (URL urlPriority) = true ->
      (List.length (results s) < 100)%nat ->
      step s (with_worker i (Emitted urlPriority)
                (with_result (skipped "already_crawled") (detector s) s))
  (* smartCrawlPage: the request goes out *)
  | step_request s i urlPriority :
      pool s !! i = Some (Received urlPriority) ->
      database.IsURLCrawled (db s) (URL urlPriority) = false ->
      step s (with_worker i (Fetching urlPriority) s)
  (* smartCrawlPage: the rest of it, and results <- result *)
  | step_response s i urlPriority fetched now elapsed result dd :
      pool s !! i = Some (Fetching urlPriority) ->
      afterRequest urlPriority fetched now elapsed (detector s) = Some (result, dd) ->
      (List.length (results s) < 100)%nat ->
      step s (with_worker i (Emitted urlPriority) (with_result result dd s))
  (* s.db.MarkURLProcessed(urlPriority.URL) *)
  | step_mark s i urlPriority :
      pool s !! i = Some (Emitted urlPriority) ->
      step s (with_worker i Idle
                (with_db (database.MarkURLProcessed (db s) (URL urlPriority)) s))
  (* processSmartResults takes one result *)
  | step_process s now result rest :
      results s = result :: rest ->
      step s
        (let '(d, st) := processSmartResult now (db s) (stats s) result in
         {| db := d; urlQueue := urlQueue s; nextURLs := nextURLs s;
            pool := pool s; results := rest; detector := detector s;
            stats := st |}).

(** The states [Crawl] reaches from [s0]. *)
Inductive reachable (s0 : State) : State -> Prop :=
  | reachable_start : reachable s0 s0
  | reachable_step s s' : reachable s0 s -> step s s' -> reachable s0 s'.

End Crawl.

(** The entry a worker has in hand. *)
Definition inHand (w : Worker) : option URLPriority :=
  match w with
  | Idle => None
  | Received e | Fetching e | Emitted e => Some e
  end.

(** Two workers never have requests out for one URL at the same time. *)
Definition oneFetcherPerURL (s : State) : Prop :=
  forall i j e1 e2,
    pool s !! i = Some (Fetching e1) ->
    pool s !! j = Some (Fetching e2) ->
    URL e1 = URL e2 -> i = j.

End crawler.

(** ** Sample inputs

    Stand-ins for the Go library and a few documents, to run the
    definitions on. [sample.net_url] only splits absolute URLs of the shape
    scheme://host/path?query#fragment. *)

Module sample.

Local Open Scope string_scope.
Local Open Scope Z_scope.

Import models.

(** [cut sep s]: the parts of [s] before and after the first [sep]. *)
Fixpoint cut (sep s : string) : option (string * string) :=
  if strings.HasPrefix s sep
  then Some ("", String.substring (String.length sep) (String.length s) s)
  else match s with
       | EmptyString => None
       | String c s' =>
           match cut sep s' with
           | Some (before, after) => Some (String c before, after)
           | None => None
           end
       end.

Definition cutOr (sep s : string) : string * string :=
  match cut sep s with
  | Some parts => parts
  | None => (s, "")
  end.

Definition parse (raw : string) : option url.URL :=
  let '(rest, fragment) := cutOr "#" raw in
  let '(rest, query) := cutOr "?" rest in
  match cut "://" rest with
  | Some (scheme, rest) =>
      match cut "/" rest with
      | Some (host, path) =>
          Some {| url.Scheme := scheme; url.Host := host;
                  url.Path := "/" ++ path; url.RawQuery := query;
                  url.Fragment := fragment |}
      | None =>
          Some {| url.Scheme := scheme; url.Host := rest; url.Path := "";
                  url.RawQuery := query; url.Fragment := fragment |}
      end
  | None =>
      Some {| url.Scheme := ""; url.Host := ""; url.Path := rest;
              url.RawQuery := query; url.Fragment := fragment |}
  end.

Definition resolve (base ref : url.URL) : url.URL :=
  if String.eqb (url.Scheme ref) "" then
    {| url.Scheme := url.Scheme base; url.Host := url.Host base;
       url.Path := if String.eqb (url.Path ref) "" then url.Path base
                   else url.Path ref;
       url.RawQuery := url.RawQuery ref; url.Fragment := url.Fragment ref |}
  else ref.

Definition render (u : url.URL) : string :=
  (if String.eqb (url.Scheme u) "" then "" else url.Scheme u ++ "://") ++
  url.Host u ++ url.Path u ++
  (if String.eqb (url.RawQuery u) "" then "" else "?" ++ url.RawQuery u) ++
  (if String.eqb (url.Fragment u) "" then "" else "#" ++ url.Fragment u).

Definition net_url : url.Package :=
  {| url.Parse := parse; url.ResolveReference := resolve;
     url.String := render |}.

(** The body itself stands for its digest. *)
Definition digest : md5.Package := {| md5.SumHex := fun body => body |}.

Definition text (s : string) : goquery.Node := goquery.TextNode s.

Definition anchor (attrs : list (string * string)) (label : string)
    : goquery.Node :=
  goquery.ElementNode "a" attrs [text label].

Definition contextOf (importance : float) : URLContext :=
  {| ContentType := ""; Importance := importance; LastModified := 0;
     LinkDensity := 0; ContentQuality := 0; SimilarityScore := 0 |}.

(** An anchor with every negative signal and none of the others. *)
Definition worstLink : goquery.Selection :=
  [anchor [("href", "/login"); ("rel", "nofollow"); ("class", "nav menu")]
     "  Login  "].

(** An anchor with no signal at all. *)
Definition plainLink : goquery.Selection :=
  [anchor [("href", "/next")] "next page"].

(** The page of the end-to-end scenario: two links, and a script. *)
Definition twoLinks : goquery.Document :=
  [goquery.ElementNode "html" []
     [goquery.ElementNode "head" []
        [goquery.ElementNode "title" [] [text "Example Domain"]];
      goquery.ElementNode "body" []
        [anchor [("href", "/articles/1")] "Read our Article";
         anchor [("href", "/contact")] "Contact Us";
         anchor [("href", "/data.json")] "Raw data"]]].

(** A page with 2500 bytes of body text, one h1, five paragraphs and a
    meta description. *)
Definition richPage : goquery.Document :=
  let p := goquery.ElementNode "p" [] [text (strings.Repeat "x" 499)] in
  [goquery.ElementNode "html" []
     [goquery.ElementNode "head" []
        [goquery.ElementNode "meta"
           [("name", "description"); ("content", "a rich page")] []];
      goquery.ElementNode "body" []
        [goquery.ElementNode "h1" [] [text "Title"]; p; p; p; p; p]]].

(** A page with no body text. *)
Definition emptyPage : goquery.Document :=
  [goquery.ElementNode "html" [] [goquery.ElementNode "body" [] []]].

(** Every body parses to the page of the scenario. *)
Definition parser : goquery.Parser :=
  {| goquery.NewDocumentFromReader := fun _ => Some twoLinks |}.

Definition entry (u : string) (priority depth : Z) : URLPriority :=
  {| URL := u; Priority := priority; Depth := depth; Parent := "";
     Context := zeroContext |}.

Definition emptyDB : database.PostgresDB :=
  {| database.crawl_queue := ∅; database.pages := ∅ |}.

(** One URL found twice: at depth 1 with priority 30, and on another page
    at depth 4 with priority 80. *)
Definition low : URLPriority :=
  {| URL := "https://example.com/a"; Priority := 30; Depth := 1;
     Parent := "https://example.com"; Context := zeroContext |}.

Definition high : URLPriority :=
  {| URL := "https://example.com/a"; Priority := 80; Depth := 4;
     Parent := "https://example.com/b"; Context := zeroContext |}.

(** The database after [AddToQueue] of [first] at time 1 and of [second]
    at time 2. *)
Definition enqueued (first : list URLPriority) : database.PostgresDB :=
  fst (database.AddToQueue 1 emptyDB first).

Definition enqueuedTwice (first second : list URLPriority)
    : database.PostgresDB :=
  fst (database.AddToQueue 2 (enqueued first) second).

Definition rowOf (e : URLPriority) (now : Z) : database.QueueRow :=
  {| database.priority := Priority e; database.depth := Depth e;
     database.parent_url := Parent e; database.scheduled_at := now;
     database.attempts := 0; database.status := "pending" |}.

Definition config (depth : Z) : crawler.Config :=
  {| crawler.startURL := "https://example.com";
     crawler.maxDepth := depth;
     crawler.workers := 2 |}.

(** The sample crawl when the first worker has received the start URL. *)
Definition received (depth : Z) : crawler.State :=
  let s0 := crawler.start (config depth) 0 emptyDB in
  crawler.with_worker 0 (crawler.Received (crawler.initialURL (config depth)))
    (crawler.with_channel [] (crawler.nextURLs s0) s0).

End sample.

(** ** Statements of the specification

    The properties the specification words differently from the code, as
    it words them, to compare with the definitions above. *)

Module spec.

Local Open Scope Z_scope.

Import models.

(** The page importance adds round(importance * 20) to the priority. *)
Definition importanceAddsRound (sel : goquery.Selection)
    (pageContext : URLContext) : Prop :=
  crawler.calculateLinkPriority sel pageContext =
  Z.max 1 (Z.min 100
    (crawler.linkSignals sel +
     GoFloat.round_float64 (Importance pageContext * 20)%float)).

(** The greatest of [existing] and the priorities of the entries of
    [urls] for [url]. *)
Definition maxPriority (url : string) (existing : Z)
    (urls : list URLPriority) : Z :=
  fold_left
    (fun acc urlPriority =>
       if String.eqb (URL urlPriority) url
       then Z.max acc (Priority urlPriority) else acc)
    urls existing.



(** The row of [url] has the status completed. *)
Definition completed (p : database.PostgresDB) (url : string) : Prop :=
  exists row,
    database.crawl_queue p !! url = Some row /\
    database.status row = "completed"%string.

(** The column [depth] of [crawl_queue] has the type INTEGER. *)
Definition integerDepths (p : database.PostgresDB) : Prop :=
  forall url row,
    database.crawl_queue p !! url = Some row ->
    database.int4 (database.depth row) = true.

(** No worker has an entry deeper than [maxDepth] in hand. *)
Definition handedWithinDepth (cfg : crawler.Config) (s : crawler.State)
    : Prop :=
  forall i w e,
    crawler.pool s !! i = Some w -> crawler.inHand w = Some e ->
    Depth e <= crawler.maxDepth cfg.

(** Every depth in the crawl fits INTEGER, and every entry in the worker
    channel or in the hand of a worker is within [maxDepth]. *)
Definition depthInvariant (cfg : crawler.Config) (s : crawler.State) : Prop :=
  integerDepths (crawler.db s) /\
  (forall e, e ∈ crawler.nextURLs s -> database.int4 (Depth e) = true) /\
  (forall e, e ∈ crawler.urlQueue s ->
     database.int4 (Depth e) = true /\ Depth e <= crawler.maxDepth cfg) /\
  (forall i w e,
     crawler.pool s !! i = Some w -> crawler.inHand w = Some e ->
     database.int4 (Depth e) = true /\ Depth e <= crawler.maxDepth cfg).

End spec.

(** ** Further statements

    Definitions used to state what the code does beyond the properties of
    the specification. *)

Module facts.

Local Open Scope string_scope.
Local Open Scope Z_scope.

Import models.

(** The values of an entry fit the INTEGER columns. *)
Definition fits (e : URLPriority) : bool :=
  database.int4 (Priority e) && database.int4 (Depth e).

(** The first entry of a batch for [url]. *)
Definition firstFor (url : string) (urls : list URLPriority)
    : option URLPriority :=
  List.find (fun e => String.eqb (URL e) url) urls.

(** The row a first insertion of [e] at time [now] makes, with the
    priority [p]. *)
Definition inserted (now p : Z) (e : URLPriority) : database.QueueRow :=
  {| database.priority := p;
     database.depth := Depth e;
     database.parent_url := Parent e;
     database.scheduled_at := now;
     database.attempts := 0;
     database.status := "pending" |}.




(** The labels [guessContentType] gives. *)
Definition contentTypes : list string :=
  ["article"; "news"; "documentation"; "general"].

(** A priority of the data model, and a depth the crawl may store. *)
Definition bounded (cfg : crawler.Config) (priority depth : Z) : Prop :=
  1 <= priority <= 100 /\ depth <= crawler.maxDepth cfg + 1.

(** Every row of the queue is within the bounds. *)
Definition boundedQueue (cfg : crawler.Config) (p : database.PostgresDB)
    : Prop :=
  forall url row,
    database.crawl_queue p !! url = Some row ->
    bounded cfg (database.priority row) (database.depth row).

(** The entries on their way to the workers and with the workers. *)
Definition onTheWay (s : crawler.State) (e : URLPriority) : Prop :=
  e ∈ crawler.nextURLs s \/ e ∈ crawler.urlQueue s \/
  exists i w, crawler.pool s !! i = Some w /\ crawler.inHand w = Some e.

(** The rows, the entries on their way and the links of the results not
    yet processed are within the bounds. *)
Definition boundsInvariant (cfg : crawler.Config) (s : crawler.State)
    : Prop :=
  boundedQueue cfg (crawler.db s) /\
  (forall e, onTheWay s e -> bounded cfg (Priority e) (Depth e)) /\
  (forall result link,
     result ∈ crawler.results s -> link ∈ crawler.Links result ->
     bounded cfg (Priority link) (Depth link)).

(** Nothing is lost from [s0] to [s]: queued URLs stay queued, crawled
    URLs stay crawled, recorded hashes stay recorded. *)
Definition keeps (s0 s : crawler.State) : Prop :=
  (forall url,
     is_Some (database.crawl_queue (crawler.db s0) !! url) ->
     is_Some (database.crawl_queue (crawler.db s) !! url)) /\
  (forall url,
     database.IsURLCrawled (crawler.db s0) url = true ->
     database.IsURLCrawled (crawler.db s) url = true) /\
  (forall hash,
     crawler.seen (crawler.detector s0) hash = true ->
     crawler.seen (crawler.detector s) hash = true) /\
  List.length (crawler.pool s) = List.length (crawler.pool s0).

(** Where a caller of [IsDuplicate] holds the read lock, and where it
    holds the write lock. *)
Definition holdsRead (pt : crawler.Point) : bool :=
  match pt with
  | crawler.AtLoad | crawler.AtReturnTrue | crawler.AtRUnlock
  | crawler.AtReturnFalse => true
  | _ => false
  end.

Definition holdsWrite (pt : crawler.Point) : bool :=
  match pt with
  | crawler.AtStore | crawler.AtUnlock => true
  | _ => false
  end.

(** Where the hash of the caller has been found or stored. *)
Definition afterRecord (pt : crawler.Point) : bool :=
  match pt with
  | crawler.AtReturnTrue | crawler.AtUnlock | crawler.AtRLockAgain
  | crawler.AtReturnFalse | crawler.Returned _ => true
  | _ => false
  end.

(** Where the caller has found its hash missing. *)
Definition foundMissing (pt : crawler.Point) : bool :=
  match pt with
  | crawler.AtRUnlock | crawler.AtLock | crawler.AtStore | crawler.AtUnlock
  | crawler.AtRLockAgain | crawler.AtReturnFalse
  | crawler.Returned false => true
  | _ => false
  end.

(** The number of callers at a point that satisfies [f]. *)
Fixpoint count (f : crawler.Point -> bool) (cs : crawler.Callers) : nat :=
  match cs with
  | [] => 0
  | (_, pt) :: rest => (if f pt then 1 else 0) + count f rest
  end.

(** The mutex counts the callers that hold it. *)
Definition lockInvariant (cs : crawler.Callers)
    (dd : crawler.DuplicateDetector) : Prop :=
  sync.readers (crawler.mutex dd) = count holdsRead cs /\
  (if sync.writer (crawler.mutex dd)
   then count holdsWrite cs = 1%nat /\ count holdsRead cs = 0%nat
   else count holdsWrite cs = 0%nat).

(** Callers that are all about to start. *)
Definition fresh (cs : crawler.Callers) : Prop :=
  Forall (fun c => snd c = crawler.AtRLock) cs.


(** What the callers know agrees with the map: the hashes recorded at
    [dd0] are still recorded, a caller past its test or its store has its
    hash recorded, and a caller that found its hash missing has a hash
    that was not recorded at [dd0]. *)
Definition recordInvariant (dd0 : crawler.DuplicateDetector)
    (cs : crawler.Callers) (dd : crawler.DuplicateDetector) : Prop :=
  (forall h, crawler.seen dd0 h = true -> crawler.seen dd h = true) /\
  (forall i hash pt,
     cs !! i = Some (hash, pt) ->
     (afterRecord pt = true -> crawler.seen dd hash = true) /\
     (foundMissing pt = true -> crawler.seen dd0 hash = false)).

End facts.

(** * Properties *)

Import models crawler.

Local Open Scope string_scope.
Local Open Scope Z_scope.

(** ** Integers and floats *)

Ltac powers :=
  change (2 ^ 31) with 2147483648 in *;
  change (2 ^ 62) with 4611686018427387904 in *;
  change (2 ^ 53) with 9007199254740992 in *;
  change (2 ^ 63) with 9223372036854775808 in *;
  change (2 ^ 64) with 18446744073709551616 in *.

Lemma wrap64_small (z : Z) : GoInt.in_range z -> GoInt.wrap64 z = z.
Proof.
  unfold GoInt.in_range, GoInt.min_int, GoInt.max_int, GoInt.wrap64.
  intros Hz. rewrite Z.mod_small; lia.
Qed.

Lemma wrap64_range (z : Z) : GoInt.in_range (GoInt.wrap64 z).
Proof.
  unfold GoInt.in_range, GoInt.min_int, GoInt.max_int, GoInt.wrap64.
  pose proof (Z.mod_pos_bound (z + 2 ^ 63) (2 ^ 64) ltac:(lia)). lia.
Qed.

Lemma add_small (a b : Z) :
  - 2 ^ 62 <= a < 2 ^ 62 -> - 2 ^ 62 <= b < 2 ^ 62 -> a +i b = a + b.
Proof.
  intros Ha Hb. apply wrap64_small.
  unfold GoInt.in_range, GoInt.min_int, GoInt.max_int. powers. lia.
Qed.

(** Shifting a mantissa by its exponent is dividing the numerator of the
    value by its denominator. *)
Lemma shiftl_quot (m : positive) (e : Z) :
  Z.shiftl (Z.pos m) e = Z.quot (Z.pos m * 2 ^ Z.max e 0) (2 ^ Z.max (- e) 0).
Proof.
  destruct (Z.le_gt_cases 0 e) as [He | He].
  - rewrite Z.max_l, Z.max_r by lia.
    rewrite Z.shiftl_mul_pow2 by lia. simpl (2 ^ 0). now rewrite Z.quot_1_r.
  - rewrite Z.max_r, Z.max_l by lia.
    replace e with (- - e) at 1 by lia.
    rewrite Z.shiftl_opp_r, Z.shiftr_div_pow2 by lia.
    simpl (2 ^ 0). rewrite Z.mul_1_r.
    rewrite Z.quot_div_nonneg; [reflexivity | lia |].
    apply Z.pow_pos_nonneg; lia.
Qed.

(** Inside the range of [int], the conversion is the truncation. *)
Lemma int_of_float64_trunc (f : float) :
  GoFloat.is_finite f = true ->
  GoInt.in_range (GoFloat.trunc_float64 f) ->
  GoFloat.int_of_float64 f = GoFloat.trunc_float64 f.
Proof.
  unfold GoFloat.is_finite, GoFloat.int_of_float64, GoFloat.trunc_float64,
    GoFloat.float64_num, GoFloat.float64_den, GoInt.in_range.
  destruct (Prim2SF f) as [s | s | | s m e]; try discriminate; intros _ Hr.
  - reflexivity.
  - cbv zeta in *.
    assert (Hd : 2 ^ Z.max (- e) 0 <> 0)
      by (apply Z.pow_nonzero; lia).
    assert (Hv : (if s then - Z.shiftl (Z.pos m) e else Z.shiftl (Z.pos m) e) =
                 Z.quot (if s then - (Z.pos m * 2 ^ Z.max e 0)
                         else Z.pos m * 2 ^ Z.max e 0) (2 ^ Z.max (- e) 0)).
    { destruct s.
      - rewrite Z.quot_opp_l by exact Hd. now rewrite shiftl_quot.
      - apply shiftl_quot. }
    rewrite Hv.
    destruct (Z.leb_spec GoInt.min_int
                (Z.quot (if s then - (Z.pos m * 2 ^ Z.max e 0)
                         else Z.pos m * 2 ^ Z.max e 0) (2 ^ Z.max (- e) 0)));
      [| lia].
    destruct (Z.leb_spec
                (Z.quot (if s then - (Z.pos m * 2 ^ Z.max e 0)
                         else Z.pos m * 2 ^ Z.max e 0) (2 ^ Z.max (- e) 0))
                GoInt.max_int); [reflexivity | lia].
Qed.

(** ** Link priority *)

Lemma keywordLoop_cases anchorText keywords delta priority :
  keywordLoop anchorText keywords delta priority = priority \/
  keywordLoop anchorText keywords delta priority = priority +i delta.
Proof.
  induction keywords as [| keyword rest IH]; simpl.
  - now left.
  - destruct (strings.Contains (strings.ToLower anchorText) keyword).
    + now right.
    + exact IH.
Qed.

(** Without the page importance a priority is between 50 - 15 - 30 - 10
    and 50 + 20 + 15. *)
Lemma linkSignals_bounds (sel : goquery.Selection) :
  -5 <= linkSignals sel <= 85.
Proof.
  unfold linkSignals.
  set (anchorText := strings.TrimSpace (goquery.Text sel)).
  destruct (keywordLoop_cases anchorText highPriorityKeywords 20 50) as [-> | ->];
  match goal with
  | |- context [keywordLoop anchorText lowPriorityKeywords ?d ?p] =>
      destruct (keywordLoop_cases anchorText lowPriorityKeywords d p) as [-> | ->]
  end;
  destruct (goquery.Attr sel "rel") as [rel |];
  try destruct (strings.Contains rel "nofollow");
  destruct (goquery.Attr sel "class") as [class |];
  try destruct (strings.Contains class "nav" || strings.Contains class "menu");
  try destruct (strings.Contains class "content" || strings.Contains class "article");
  vm_compute; split; discriminate.
Qed.

Lemma calculateLinkPriority_clamp (sel : goquery.Selection) (ctx : URLContext) :
  calculateLinkPriority sel ctx =
  Z.max 1 (Z.min 100
    (linkSignals sel +i GoFloat.int_of_float64 (Importance ctx * 20)%float)).
Proof.
  unfold calculateLinkPriority. cbv zeta.
  set (p := linkSignals sel +i _).
  destruct (Z.ltb_spec p 1).
  - destruct (Z.ltb_spec 100 1); lia.
  - destruct (Z.ltb_spec 100 p); lia.
Qed.

(** C1. For every anchor (its text, its rel and class attributes) and every
    context of the referring page, the priority that
    [calculateLinkPriority] computes is between 1 and 100; an anchor that
    carries every negative signal gets priority 1. *)
Theorem calculateLinkPriority_in_range :
  (forall (sel : goquery.Selection) (pageContext : URLContext),
     1 <= calculateLinkPriority sel pageContext <= 100) /\
  calculateLinkPriority sample.worstLink (sample.contextOf 0) = 1.
Proof.
  split.
  - intros sel pageContext. rewrite calculateLinkPriority_clamp. lia.
  - vm_compute. reflexivity.
Qed.

(** The claim of C2 fails where importance * 20 has a fraction of a half
    or more: for importance 0.49 the product is 9.8, the code adds 9 and
    the priority is 59, where rounding would add 10 and give 60. *)
Lemma importance_boost_not_rounded :
  ~ spec.importanceAddsRound sample.plainLink (sample.contextOf 0.49).
Proof. unfold spec.importanceAddsRound. vm_compute. discriminate. Qed.

(** C2, amended. The page importance adds importance * 20 with its
    fraction discarded: whenever the float64 product is finite and its
    integer part is far from the ends of [int], the priority is the sum of
    the link signals and the truncated product, clamped to 1..100. *)
Theorem importance_boost_truncates
    (sel : goquery.Selection) (pageContext : URLContext) :
  GoFloat.is_finite (Importance pageContext * 20)%float = true ->
  - 2 ^ 62 <= GoFloat.trunc_float64 (Importance pageContext * 20)%float < 2 ^ 62 ->
  calculateLinkPriority sel pageContext =
  Z.max 1 (Z.min 100
    (linkSignals sel +
     GoFloat.trunc_float64 (Importance pageContext * 20)%float)).
Proof.
  intros Hfin Hrange.
  rewrite calculateLinkPriority_clamp.
  rewrite int_of_float64_trunc.
  - rewrite add_small; [reflexivity | | exact Hrange].
    pose proof (linkSignals_bounds sel). powers. lia.
  - exact Hfin.
  - unfold GoInt.in_range, GoInt.min_int, GoInt.max_int. powers. lia.
Qed.

Lemma importance_boost_truncates_witness :
  GoFloat.trunc_float64 (0.49 * 20)%float = 9 /\
  calculateLinkPriority sample.plainLink (sample.contextOf 0.49) =
  Z.max 1 (Z.min 100
    (linkSignals sample.plainLink + GoFloat.trunc_float64 (0.49 * 20)%float)).
Proof.
  split.
  - vm_compute. reflexivity.
  - apply (importance_boost_truncates sample.plainLink (sample.contextOf 0.49)).
    + vm_compute. reflexivity.
    + vm_compute. split; [discriminate | reflexivity].
Defined.

(** ** The crawl queue *)

Lemma upsert_present now q urlPriority q' url row :
  database.upsert now q urlPriority = inr q' ->
  q !! url = Some row ->
  q' !! url =
  Some (database.set_priority
          (if String.eqb (URL urlPriority) url
           then Z.max (database.priority row) (Priority urlPriority)
           else database.priority row) row).
Proof.
  unfold database.upsert. intros Hup Hrow.
  destruct (database.int4 (Priority urlPriority) &&
            database.int4 (Depth urlPriority)); [| discriminate].
  injection Hup as <-.
  destruct (String.eqb_spec (URL urlPriority) url) as [-> | Hne].
  - rewrite Hrow. now rewrite lookup_insert_eq.
  - assert (Hsame : database.set_priority (database.priority row) row = row)
      by now destruct row.
    rewrite Hsame.
    destruct (q !! URL urlPriority); now rewrite lookup_insert_ne.
Qed.

Lemma execAll_present now urls : forall q q' url row,
  database.execAll now q urls = inr q' ->
  q !! url = Some row ->
  q' !! url =
  Some (database.set_priority
          (spec.maxPriority url (database.priority row) urls) row).
Proof.
  induction urls as [| urlPriority rest IH]; simpl; intros q q' url row Hex Hrow.
  - injection Hex as <-. rewrite Hrow. now destruct row.
  - destruct (database.upsert now q urlPriority) as [err | q1] eqn:Hup;
      [discriminate |].
    rewrite (IH _ _ _ _ Hex (upsert_present _ _ _ _ _ _ Hup Hrow)).
    unfold spec.maxPriority. simpl. reflexivity.
Qed.

(** A statement is rejected only for a value outside INTEGER. *)
Lemma execAll_succeeds now urls : forall q,
  Forall (fun e => database.int4 (Priority e) = true /\
                   database.int4 (Depth e) = true) urls ->
  exists q', database.execAll now q urls = inr q'.
Proof.
  induction urls as [| urlPriority rest IH]; simpl; intros q Hall.
  - now exists q.
  - inversion Hall as [| ? ? [Hp Hd] Hrest]; subst.
    unfold database.upsert. rewrite Hp, Hd. simpl. apply IH, Hrest.
Qed.

(** C3. When [AddToQueue] returns no error, every URL that was in the
    queue keeps its row but for the priority, which becomes the greatest
    of the stored priority and the priorities enqueued for that URL: for a
    single entry, max(existing, new). The depth, the parent URL and the
    other columns are unchanged. *)
Theorem AddToQueue_priority_max
    (now : Z) (p p' : database.PostgresDB) (urls : list URLPriority)
    (url : string) (row : database.QueueRow) :
  database.AddToQueue now p urls = (p', None) ->
  database.crawl_queue p !! url = Some row ->
  exists row',
    database.crawl_queue p' !! url = Some row' /\
    database.priority row' =
      spec.maxPriority url (database.priority row) urls /\
    (forall urlPriority, urls = [urlPriority] -> URL urlPriority = url ->
       database.priority row' =
         Z.max (database.priority row) (Priority urlPriority)) /\
    database.depth row' = database.depth row /\
    database.parent_url row' = database.parent_url row /\
    database.scheduled_at row' = database.scheduled_at row /\
    database.attempts row' = database.attempts row /\
    database.status row' = database.status row.
Proof.
  unfold database.AddToQueue. intros Hadd Hrow.
  destruct (database.execAll now (database.crawl_queue p) urls) as [err | q']
    eqn:Hex; [discriminate |].
  injection Hadd as <-. simpl.
  eexists. split; [exact (execAll_present _ _ _ _ _ _ Hex Hrow) |].
  simpl. repeat split; try reflexivity.
  intros urlPriority -> <-. unfold spec.maxPriority. simpl.
  now rewrite String.eqb_refl.
Qed.

(** 30 then 80, and 80 then 30: the stored priority is 80 both times, and
    the depth and the parent stay those of the first insertion. *)
Lemma AddToQueue_priority_max_witness :
  (exists row,
     database.crawl_queue (sample.enqueuedTwice [sample.low] [sample.high])
       !! "https://example.com/a" = Some row /\
     database.priority row = 80 /\ database.depth row = 1 /\
     database.parent_url row = "https://example.com") /\
  (exists row,
     database.crawl_queue (sample.enqueuedTwice [sample.high] [sample.low])
       !! "https://example.com/a" = Some row /\
     database.priority row = 80 /\ database.depth row = 4 /\
     database.parent_url row = "https://example.com/b").
Proof.
  split.
  - destruct (AddToQueue_priority_max 2 (sample.enqueued [sample.low])
                (sample.enqueuedTwice [sample.low] [sample.high])
                [sample.high] "https://example.com/a" (sample.rowOf sample.low 1))
      as (row & Hrow & _ & Hmax & Hdepth & Hparent & _).
    + vm_compute. reflexivity.
    + vm_compute. reflexivity.
    + exists row. rewrite (Hmax sample.high eq_refl eq_refl), Hdepth, Hparent.
      repeat split; [exact Hrow | reflexivity ..].
  - destruct (AddToQueue_priority_max 2 (sample.enqueued [sample.high])
                (sample.enqueuedTwice [sample.high] [sample.low])
                [sample.low] "https://example.com/a" (sample.rowOf sample.high 1))
      as (row & Hrow & _ & Hmax & Hdepth & Hparent & _).
    + vm_compute. reflexivity.
    + vm_compute. reflexivity.
    + exists row. rewrite (Hmax sample.low eq_refl eq_refl), Hdepth, Hparent.
      repeat split; [exact Hrow | reflexivity ..].
Defined.

(** ** The duplicate detector *)

Lemma seen_recorded dd h hash :
  seen (recorded dd h) hash = bool_decide (h = hash) || seen dd hash.
Proof.
  unfold seen, recorded. simpl.
  destruct (decide (h = hash)) as [-> | Hne].
  - rewrite lookup_insert_eq. now rewrite bool_decide_eq_true_2.
  - rewrite lookup_insert_ne by exact Hne.
    now rewrite bool_decide_eq_false_2.
Qed.

(** One call, from an unlocked mutex: it completes, it answers whether the
    hash was there, it leaves the hash there and the mutex unlocked. *)
Lemma IsDuplicate_unlocked dd hash :
  mutex dd = sync.unlocked ->
  IsDuplicate hash dd =
  Some (seen dd hash, if seen dd hash then dd else recorded dd hash).
Proof.
  destruct dd as [hashes m]. simpl. intros ->.
  unfold IsDuplicate, bind, load, onMutex, store, ret, recorded, seen. simpl.
  destruct (hashes !! hash) as [[] |]; reflexivity.
Qed.

Lemma IsDuplicate_mutex dd hash :
  mutex (if seen dd hash then dd else recorded dd hash) = mutex dd.
Proof. now destruct (seen dd hash). Qed.

Lemma IsDuplicate_seen dd h hash :
  seen (if seen dd h then dd else recorded dd h) hash =
  bool_decide (h = hash) || seen dd hash.
Proof.
  destruct (seen dd h) eqn:Hh.
  - destruct (decide (h = hash)) as [<- | Hne].
    + rewrite Hh. now rewrite bool_decide_eq_true_2.
    + now rewrite bool_decide_eq_false_2.
  - apply seen_recorded.
Qed.

(** C4. Calls of [IsDuplicate] made one after the other, on a detector
    whose mutex is free, all complete; the call for a hash answers [true]
    exactly when the hash was recorded before the calls or is the hash of
    an earlier call, so the first call for a fresh hash answers [false]
    and every later call for it answers [true]; a recorded hash stays
    recorded, and every hash passed is recorded afterwards. *)
Theorem IsDuplicate_test_and_set
    (hashes : list string) (dd : DuplicateDetector) :
  mutex dd = sync.unlocked ->
  exists answers dd',
    IsDuplicateAll hashes dd = Some (answers, dd') /\
    mutex dd' = sync.unlocked /\
    (forall i hash, hashes !! i = Some hash ->
       answers !! i =
       Some (seen dd hash || bool_decide (hash ∈ take i hashes))) /\
    (forall hash, seen dd hash = true -> seen dd' hash = true) /\
    (forall hash, hash ∈ hashes -> seen dd' hash = true).
Proof.
  revert dd. induction hashes as [| h rest IH]; intros dd Hm.
  - exists [], dd. repeat split; try done.
    intros hash Hin. inversion Hin.
  - set (dd1 := if seen dd h then dd else recorded dd h).
    assert (Hm1 : mutex dd1 = sync.unlocked)
      by (unfold dd1; now rewrite IsDuplicate_mutex).
    destruct (IH dd1 Hm1) as (answers & dd' & Hrun & Hm' & Hans & Hkeep & Hall).
    exists (seen dd h :: answers), dd'.
    split.
    { simpl. unfold bind at 1. rewrite (IsDuplicate_unlocked dd h Hm).
      fold dd1. unfold bind at 1. rewrite Hrun. reflexivity. }
    split; [exact Hm' |].
    assert (Hseen1 : forall hash,
              seen dd1 hash = bool_decide (h = hash) || seen dd hash)
      by (intros hash; apply IsDuplicate_seen).
    split; [| split].
    + intros [| i] hash Hi; simpl in Hi.
      * injection Hi as <-. simpl. now rewrite orb_false_r.
      * simpl. rewrite (Hans i hash Hi), Hseen1. f_equal.
        destruct (decide (h = hash)) as [<- | Hne].
        -- rewrite bool_decide_eq_true_2 by reflexivity.
           rewrite (bool_decide_eq_true_2 (h ∈ h :: take i rest))
             by apply list_elem_of_here.
           now rewrite orb_true_r.
        -- rewrite (bool_decide_eq_false_2 (h = hash)) by exact Hne.
           simpl. f_equal. apply bool_decide_ext.
           rewrite elem_of_cons. intuition congruence.
    + intros hash Hs. apply Hkeep. rewrite Hseen1, Hs. apply orb_true_r.
    + intros hash Hin. apply elem_of_cons in Hin as [-> | Hin].
      * apply Hkeep. rewrite Hseen1.
        now rewrite bool_decide_eq_true_2.
      * now apply Hall.
Qed.

(** Three calls on a new detector, with hashes a, b, a: the answers are
    false, false, true. *)
Lemma IsDuplicate_test_and_set_witness :
  exists answers dd',
    IsDuplicateAll ["a"; "b"; "a"] NewDuplicateDetector = Some (answers, dd') /\
    mutex dd' = sync.unlocked /\
    (forall i hash, ["a"; "b"; "a"] !! i = Some hash ->
       answers !! i =
       Some (seen NewDuplicateDetector hash ||
             bool_decide (hash ∈ take i ["a"; "b"; "a"]))) /\
    (forall hash, seen NewDuplicateDetector hash = true -> seen dd' hash = true) /\
    (forall hash, hash ∈ ["a"; "b"; "a"] -> seen dd' hash = true).
Proof.
  apply (IsDuplicate_test_and_set ["a"; "b"; "a"] NewDuplicateDetector).
  reflexivity.
Defined.

Example IsDuplicate_a_b_a :
  fst <$> IsDuplicateAll ["a"; "b"; "a"] NewDuplicateDetector =
  Some [false; false; true].
Proof. vm_compute. reflexivity. Qed.

Ltac run_callers :=
  repeat first [progress simpl | progress unfold stepAt, seen].

(** Run alone, the statements of a caller do what [IsDuplicate] does. *)
Lemma stepCaller_alone (hash : string) (dd : DuplicateDetector) :
  mutex dd = sync.unlocked ->
  exists n,
    runSchedule (replicate n 0%nat) [(hash, AtRLock)] dd =
    match IsDuplicate hash dd with
    | Some (answer, dd') => Some ([(hash, Returned answer)], dd')
    | None => None
    end.
Proof.
  intros Hm. rewrite (IsDuplicate_unlocked dd hash Hm).
  destruct dd as [hashes m]. simpl in Hm. subst m.
  destruct (seen {| seenHashes := hashes; mutex := sync.unlocked |} hash)
    eqn:Hseen.
  - exists 3%nat. unfold seen in Hseen. simpl in Hseen.
    run_callers. rewrite Hseen. run_callers. reflexivity.
  - exists 8%nat. unfold seen in Hseen. simpl in Hseen.
    run_callers. rewrite Hseen. run_callers. reflexivity.
Qed.

(** C5 fails on the code. Two callers with one fresh hash: both take the
    read lock and find the hash missing, both release the read lock, and
    then each in turn takes the write lock and records the hash. No call
    blocks on the way, and both return [false]. *)
Theorem IsDuplicate_race (hash : string) :
  exists dd',
    runSchedule [0; 0; 1; 1; 0; 1; 0; 0; 0; 0; 0; 1; 1; 1; 1; 1]%nat
      [(hash, AtRLock); (hash, AtRLock)] NewDuplicateDetector =
    Some ([(hash, Returned false); (hash, Returned false)], dd').
Proof.
  eexists. run_callers. reflexivity.
Qed.

(** ** Valid URLs and extracted links *)


(** What [linkOf] appends: a valid absolute URL, one level below the page,
    with the priority of its anchor. *)
Lemma linkOf_Some `{url.Package} baseURL pageContext parentDepth sel link :
  linkOf baseURL pageContext parentDepth sel = Some link ->
  utils.IsValidURL (URL link) = true /\
  URL link <> "" /\
  Depth link = parentDepth +i 1 /\
  Parent link = baseURL /\
  Priority link = calculateLinkPriority sel pageContext.
Proof.
  unfold linkOf. destruct (goquery.Attr sel "href") as [href |]; [| discriminate].
  destruct (String.eqb_spec (makeAbsoluteURL baseURL href) "") as [He | He];
    simpl; [discriminate |].
  destruct (utils.IsValidURL (makeAbsoluteURL baseURL href)) eqn:Hvalid;
    simpl; [| discriminate].
  intros [= <-]. simpl. repeat split; try reflexivity; assumption.
Qed.

Lemma extractSmartLinks_elem `{url.Package} doc baseURL pageContext parentDepth link :
  link ∈ extractSmartLinks doc baseURL pageContext parentDepth ->
  exists n, n ∈ goquery.Find doc (goquery.ByTagAttr "a" "href") /\
            linkOf baseURL pageContext parentDepth [n] = Some link.
Proof.
  unfold extractSmartLinks. intros Hin.
  apply list_elem_of_omap in Hin as (n & Hn & Hlink). eauto.
Qed.



(** ** Content quality *)


Example richPage_shape :
  strings.len
    (strings.TrimSpace
       (goquery.Text (goquery.Find sample.richPage (goquery.ByTag "body"))))
    = 2500 /\
  goquery.Length (goquery.Find sample.richPage headings) = 1 /\
  goquery.Length (goquery.Find sample.richPage (goquery.ByTag "p")) = 5 /\
  goquery.Length
    (goquery.Find sample.richPage
       (goquery.ByTagAttrEq "meta" "name" "description")) = 1.
Proof. vm_compute. repeat split. Qed.



(** ** The frontier *)

(** What [GetNextURLs] returns are rows of the queue with the status
    pending. *)
Lemma GetNextURLs_elem p limit batch e :
  database.GetNextURLs p limit = inr batch ->
  e ∈ batch ->
  exists row,
    database.crawl_queue p !! URL e = Some row /\
    database.status row = "pending" /\
    Priority e = database.priority row /\
    Depth e = database.depth row /\
    Parent e = database.parent_url row.
Proof.
  unfold database.GetNextURLs. destruct (limit <? 0); [discriminate |].
  intros [= <-] Hin.
  apply list_elem_of_In, in_map_iff in Hin as ([u row] & <- & Hin).
  apply list_elem_of_In, subseteq_take in Hin.
  rewrite merge_sort_Permutation in Hin.
  apply list_elem_of_In, filter_In in Hin as (Hin & Hpending).
  apply list_elem_of_In, elem_of_map_to_list in Hin.
  exists row. simpl. repeat split; try assumption.
  unfold database.pending in Hpending. simpl in Hpending.
  now apply String.eqb_eq.
Qed.

Lemma upsert_completed now q e q' url row :
  database.upsert now q e = inr q' ->
  q !! url = Some row ->
  exists row', q' !! url = Some row' /\
               database.status row' = database.status row /\
               database.depth row' = database.depth row.
Proof.
  intros Hup Hrow. rewrite (upsert_present _ _ _ _ _ _ Hup Hrow).
  eexists. split; [reflexivity |]. now split.
Qed.

Lemma upsert_depths now q e q' :
  database.upsert now q e = inr q' ->
  (forall url row, q !! url = Some row ->
     database.int4 (database.depth row) = true) ->
  forall url row, q' !! url = Some row ->
    database.int4 (database.depth row) = true.
Proof.
  unfold database.upsert. intros Hup Hq url row Hrow.
  destruct (database.int4 (Priority e)); [| discriminate].
  destruct (database.int4 (Depth e)) eqn:Hd; [| discriminate].
  simpl in Hup. injection Hup as <-.
  destruct (decide (URL e = url)) as [<- | Hne].
  - destruct (q !! URL e) as [old |] eqn:Hold;
      rewrite lookup_insert_eq in Hrow; injection Hrow as <-; simpl.
    + exact (Hq _ _ Hold).
    + exact Hd.
  - destruct (q !! URL e); rewrite lookup_insert_ne in Hrow by exact Hne;
      exact (Hq _ _ Hrow).
Qed.

Lemma execAll_invariants now urls : forall q q',
  database.execAll now q urls = inr q' ->
  (forall url row, q !! url = Some row ->
     exists row', q' !! url = Some row' /\
                  database.status row' = database.status row) /\
  ((forall url row, q !! url = Some row ->
      database.int4 (database.depth row) = true) ->
   forall url row, q' !! url = Some row ->
     database.int4 (database.depth row) = true).
Proof.
  induction urls as [| e rest IH]; simpl; intros q q' Hex.
  - injection Hex as <-. split; [eauto | auto].
  - destruct (database.upsert now q e) as [err | q1] eqn:Hup; [discriminate |].
    destruct (IH _ _ Hex) as (Hstatus & Hdepth). split.
    + intros url row Hrow.
      destruct (upsert_completed _ _ _ _ _ _ Hup Hrow) as (row1 & Hrow1 & Hs1 & _).
      destruct (Hstatus _ _ Hrow1) as (row' & Hrow' & Hs').
      exists row'. split; [exact Hrow' | congruence].
    + intros Hq. apply Hdepth. exact (upsert_depths _ _ _ _ Hup Hq).
Qed.

Lemma AddToQueue_completed now p urls url :
  spec.completed p url ->
  spec.completed (fst (database.AddToQueue now p urls)) url.
Proof.
  unfold database.AddToQueue. intros (row & Hrow & Hstatus).
  destruct (database.execAll now (database.crawl_queue p) urls) as [err | q']
    eqn:Hex; simpl.
  - now exists row.
  - destruct (proj1 (execAll_invariants _ _ _ _ Hex) _ _ Hrow)
      as (row' & Hrow' & Hs').
    exists row'. simpl. split; [exact Hrow' | congruence].
Qed.

Lemma AddToQueue_depths now p urls :
  spec.integerDepths p ->
  spec.integerDepths (fst (database.AddToQueue now p urls)).
Proof.
  unfold database.AddToQueue, spec.integerDepths. intros Hp.
  destruct (database.execAll now (database.crawl_queue p) urls) as [err | q']
    eqn:Hex; simpl.
  - exact Hp.
  - exact (proj2 (execAll_invariants _ _ _ _ Hex) Hp).
Qed.

Lemma MarkURLProcessed_completed p url url' :
  spec.completed p url ->
  spec.completed (database.MarkURLProcessed p url') url.
Proof.
  intros (row & Hrow & Hstatus). unfold spec.completed. simpl.
  rewrite lookup_alter. destruct (decide (url' = url)) as [-> | Hne].
  - rewrite Hrow. simpl. eexists. split; reflexivity.
  - exists row. now split.
Qed.

Lemma MarkURLProcessed_depths p url :
  spec.integerDepths p ->
  spec.integerDepths (database.MarkURLProcessed p url).
Proof.
  unfold spec.integerDepths. simpl. intros Hp url' row.
  rewrite lookup_alter. destruct (decide (url = url')) as [-> | Hne].
  - destruct (database.crawl_queue p !! url') as [old |] eqn:Hold;
      simpl; [| discriminate].
    intros [= <-]. simpl. exact (Hp _ _ Hold).
  - apply Hp.
Qed.

Lemma processSmartResult_queue now p st result :
  (forall url, spec.completed p url ->
     spec.completed (fst (processSmartResult now p st result)) url) /\
  (spec.integerDepths p ->
   spec.integerDepths (fst (processSmartResult now p st result))).
Proof.
  unfold processSmartResult.
  destruct (Error result); [now split |].
  destruct (Skipped result); [now split |].
  destruct (ResultPage result) as [page |]; [| now split].
  simpl. destruct (0 <? Z.of_nat (List.length (Links result))); split.
  - intros url Hc. now apply AddToQueue_completed.
  - intros Hd. now apply AddToQueue_depths.
  - auto.
  - auto.
Qed.

(** ** The crawl *)

Section CrawlFacts.
Context `{url.Package} `{md5.Package} `{goquery.Parser}.
Variable cfg : Config.

Lemma step_completed s s' url :
  step cfg s s' -> spec.completed (db s) url -> spec.completed (db s') url.
Proof.
  intros Hstep Hc. destruct Hstep; simpl; try assumption.
  - now apply MarkURLProcessed_completed.
  - destruct (processSmartResult now (db s) (stats s) result) as [d st] eqn:Hp.
    simpl. change d with (fst (d, st)). rewrite <- Hp.
    now apply processSmartResult_queue.
Qed.

Lemma reachable_completed s0 s url :
  reachable cfg s0 s -> spec.completed (db s0) url -> spec.completed (db s) url.
Proof.
  induction 1 as [| s s' _ IH Hstep]; intros Hc; [exact Hc |].
  exact (step_completed _ _ _ Hstep (IH Hc)).
Qed.

Lemma pool_insert (P : URLPriority -> Prop) (l : list Worker) i w :
  (forall e, inHand w = Some e -> P e) ->
  (forall j w' e, l !! j = Some w' -> inHand w' = Some e -> P e) ->
  forall j w' e, <[i := w]> l !! j = Some w' -> inHand w' = Some e -> P e.
Proof.
  intros Hw Hl j w' e Hj He.
  apply list_lookup_insert_Some in Hj as [(_ & <- & _) | (_ & Hj)].
  - now apply Hw.
  - exact (Hl _ _ _ Hj He).
Qed.

Lemma step_depthInvariant s s' :
  step cfg s s' -> spec.depthInvariant cfg s -> spec.depthInvariant cfg s'.
Proof.
  intros Hstep (Hdb & Hnext & Hqueue & Hpool).
  destruct Hstep as
    [s batch Hempty Hget
    | s e rest Hn Hdepth Hlen
    | s e rest Hn Hdepth
    | s i e rest Hi Hq
    | s i e Hi Hcrawled Hlen
    | s i e Hi Hcrawled
    | s i e fetched now elapsed result dd Hi Hafter Hlen
    | s i e Hi
    | s now result rest Hres];
    unfold spec.depthInvariant; simpl.
  - (* tick *)
    repeat split; try assumption; try (intros; now apply Hqueue).
    + intros e He.
      destruct (GetNextURLs_elem _ _ _ _ Hget He) as (row & Hrow & _ & _ & Hd & _).
      rewrite Hd. exact (Hdb _ _ Hrow).
    + intros; eapply Hpool; eassumption.
    + intros; eapply Hpool; eassumption.
  - (* offer *)
    rewrite Hn in Hnext.
    split; [exact Hdb |]. split; [| split].
    + intros e' He'. apply Hnext. now apply list_elem_of_further.
    + intros e' He'. apply elem_of_app in He' as [He' | He'].
      * now apply Hqueue.
      * apply list_elem_of_singleton in He' as ->.
        split; [apply Hnext, list_elem_of_here | exact Hdepth].
    + exact Hpool.
  - (* pass *)
    rewrite Hn in Hnext.
    split; [exact Hdb |]. split; [| split].
    + intros e' He'. apply Hnext. now apply list_elem_of_further.
    + exact Hqueue.
    + exact Hpool.
  - (* receive *)
    rewrite Hq in Hqueue.
    split; [exact Hdb |]. split; [exact Hnext |]. split.
    + intros e' He'. apply Hqueue. now apply list_elem_of_further.
    + apply pool_insert; [| exact Hpool].
      intros e' [= <-]. apply Hqueue, list_elem_of_here.
  - (* skip *)
    split; [exact Hdb |]. split; [exact Hnext |]. split; [exact Hqueue |].
    apply pool_insert; [| exact Hpool].
    intros e' [= <-]. exact (Hpool _ _ _ Hi eq_refl).
  - (* request *)
    split; [exact Hdb |]. split; [exact Hnext |]. split; [exact Hqueue |].
    apply pool_insert; [| exact Hpool].
    intros e' [= <-]. exact (Hpool _ _ _ Hi eq_refl).
  - (* response *)
    split; [exact Hdb |]. split; [exact Hnext |]. split; [exact Hqueue |].
    apply pool_insert; [| exact Hpool].
    intros e' [= <-]. exact (Hpool _ _ _ Hi eq_refl).
  - (* mark *)
    split; [now apply MarkURLProcessed_depths |].
    split; [exact Hnext |]. split; [exact Hqueue |].
    apply pool_insert; [| exact Hpool]. discriminate.
  - (* process *)
    destruct (processSmartResult now (db s) (stats s) result) as [d st] eqn:Hp.
    simpl. split.
    + change d with (fst (d, st)). rewrite <- Hp.
      now apply processSmartResult_queue.
    + split; [exact Hnext |]. split; [exact Hqueue | exact Hpool].
Qed.

Lemma start_depthInvariant now db0 :
  0 <= maxDepth cfg -> spec.integerDepths db0 ->
  spec.depthInvariant cfg (start cfg now db0).
Proof.
  intros Hmax Hdb0. unfold spec.depthInvariant.
  split; [exact (AddToQueue_depths now db0 [initialURL cfg] Hdb0) |].
  unfold start. simpl. split; [| split].
  - intros e He. inversion He.
  - intros e He. apply list_elem_of_singleton in He as ->. simpl.
    split; [reflexivity | exact Hmax].
  - intros i w e Hi He. apply list_elem_of_lookup_2 in Hi.
    apply elem_of_replicate_inv in Hi as ->. discriminate.
Qed.

Lemma reachable_depthInvariant s0 s :
  reachable cfg s0 s -> spec.depthInvariant cfg s0 -> spec.depthInvariant cfg s.
Proof.
  induction 1 as [| s s' _ IH Hstep]; intros Hinv; [exact Hinv |].
  exact (step_depthInvariant _ _ Hstep (IH Hinv)).
Qed.

(** The links of a result are links of the page of the entry crawled. *)
Lemma afterRequest_links e fetched now elapsed dd result dd' link :
  afterRequest e fetched now elapsed dd = Some (result, dd') ->
  link ∈ Links result ->
  exists doc pageContext,
    link ∈ extractSmartLinks doc (URL e) pageContext (Depth e).
Proof.
  unfold afterRequest, ret, bind.
  destruct fetched as [| statusCode contentType body].
  { intros [= <- _] Hin. inversion Hin. }
  destruct (isRelevantContent contentType); simpl;
    [| intros [= <- _] Hin; inversion Hin].
  destruct body as [body |]; [| intros [= <- _] Hin; inversion Hin].
  destruct (IsDuplicate (md5.SumHex body) dd) as [[[] dd1] |];
    [intros [= <- _] Hin; inversion Hin | | discriminate].
  destruct (goquery.NewDocumentFromReader body) as [doc |];
    [| intros [= <- _] Hin; inversion Hin].
  intros [= <- _] Hin. simpl in Hin. eauto.
Qed.

End CrawlFacts.

Lemma add_one_int4 (d : Z) : database.int4 d = true -> d +i 1 = d + 1.
Proof.
  unfold database.int4. intros Hd.
  apply andb_true_iff in Hd as (Hlo & Hhi).
  apply Z.leb_le in Hlo. apply Z.ltb_lt in Hhi.
  apply add_small; powers; lia.
Qed.

(** The claim of C6 fails on the code: the start URL goes into the worker
    channel and into the queue table, the first refill reads it back from
    the table, where it is still pending, and offers it again, and two
    workers have requests out for it at the same time. *)
Lemma start_URL_fetched_twice :
  ~ (forall s,
       @reachable sample.net_url sample.digest sample.parser
         (sample.config 3) (start (sample.config 3) 0 sample.emptyDB) s ->
       oneFetcherPerURL s).
Proof.
  intros Hall.
  set (cfg := sample.config 3).
  set (seed := initialURL cfg).
  set (again := sample.entry "https://example.com" 100 0).
  set (s0 := start cfg 0 sample.emptyDB).
  pose proof (reachable_start (H := sample.net_url) (H0 := sample.digest)
                (H1 := sample.parser) cfg s0) as R0.
  assert (T1 : step (H := sample.net_url) (H0 := sample.digest)
                 (H1 := sample.parser) cfg s0
                 (with_channel (urlQueue s0) [again] s0)).
  { apply step_tick; [reflexivity | vm_compute; reflexivity]. }
  pose proof (reachable_step _ _ _ _ R0 T1) as R1.
  set (s1 := with_channel (urlQueue s0) [again] s0) in *.
  assert (T2 : step (H := sample.net_url) (H0 := sample.digest)
                 (H1 := sample.parser) cfg s1
                 (with_channel (urlQueue s1 ++ [again]) [] s1)).
  { apply step_offer; [reflexivity | vm_compute; discriminate | simpl; lia]. }
  pose proof (reachable_step _ _ _ _ R1 T2) as R2.
  set (s2 := with_channel (urlQueue s1 ++ [again]) [] s1) in *.
  assert (T3 : step (H := sample.net_url) (H0 := sample.digest)
                 (H1 := sample.parser) cfg s2
                 (with_worker 0 (Received seed)
                    (with_channel [again] (nextURLs s2) s2))).
  { apply step_receive; reflexivity. }
  pose proof (reachable_step _ _ _ _ R2 T3) as R3.
  set (s3 := with_worker 0 (Received seed) _) in *.
  assert (T4 : step (H := sample.net_url) (H0 := sample.digest)
                 (H1 := sample.parser) cfg s3
                 (with_worker 1 (Received again)
                    (with_channel [] (nextURLs s3) s3))).
  { apply step_receive; reflexivity. }
  pose proof (reachable_step _ _ _ _ R3 T4) as R4.
  set (s4 := with_worker 1 (Received again) _) in *.
  assert (T5 : step (H := sample.net_url) (H0 := sample.digest)
                 (H1 := sample.parser) cfg s4
                 (with_worker 0 (Fetching seed) s4)).
  { apply step_request; [reflexivity | vm_compute; reflexivity]. }
  pose proof (reachable_step _ _ _ _ R4 T5) as R5.
  set (s5 := with_worker 0 (Fetching seed) s4) in *.
  assert (T6 : step (H := sample.net_url) (H0 := sample.digest)
                 (H1 := sample.parser) cfg s5
                 (with_worker 1 (Fetching again) s5)).
  { apply step_request; [reflexivity | vm_compute; reflexivity]. }
  pose proof (reachable_step _ _ _ _ R5 T6) as R6.
  specialize (Hall _ R6 0%nat 1%nat seed again eq_refl eq_refl eq_refl).
  discriminate.
Qed.

Lemma MarkURLProcessed_marks p url :
  is_Some (database.crawl_queue p !! url) ->
  spec.completed (database.MarkURLProcessed p url) url.
Proof.
  intros [row Hrow]. unfold spec.completed. simpl.
  rewrite lookup_alter_eq, Hrow. simpl. eexists. split; reflexivity.
Qed.

(** C6, amended. The queue has no status for an entry in flight: what
    [GetNextURLs] returns, at any point of a crawl, are rows whose status
    is pending, and the query changes no row, so an entry stays
    deliverable until [MarkURLProcessed] sets its row to completed; a URL
    whose row is completed is not returned again, whatever the crawl does
    afterwards. *)
Theorem GetNextURLs_pending_only `{url.Package} `{md5.Package} `{goquery.Parser}
    (cfg : Config) (s0 s : State) (limit : Z) (batch : list URLPriority)
    (e : URLPriority) :
  reachable cfg s0 s ->
  database.GetNextURLs (db s) limit = inr batch ->
  e ∈ batch ->
  (exists row,
     database.crawl_queue (db s) !! URL e = Some row /\
     database.status row = "pending") /\
  ~ spec.completed (db s0) (URL e) /\
  spec.completed (database.MarkURLProcessed (db s) (URL e)) (URL e).
Proof.
  intros Hreach Hget Hin.
  destruct (GetNextURLs_elem _ _ _ _ Hget Hin) as (row & Hrow & Hpending & _).
  split; [now exists row |]. split.
  - intros Hc.
    destruct (reachable_completed cfg _ _ _ Hreach Hc) as (row' & Hrow' & Hs').
    rewrite Hrow in Hrow'. injection Hrow' as <-.
    rewrite Hpending in Hs'. discriminate.
  - apply MarkURLProcessed_marks. rewrite Hrow. now eexists.
Qed.

(** At the start of the sample crawl the queue delivers the start URL. *)
Lemma GetNextURLs_pending_only_witness :
  (exists row,
     database.crawl_queue (db (start (sample.config 3) 0 sample.emptyDB))
       !! "https://example.com" = Some row /\
     database.status row = "pending") /\
  ~ spec.completed (db (start (sample.config 3) 0 sample.emptyDB))
      "https://example.com" /\
  spec.completed
    (database.MarkURLProcessed (db (start (sample.config 3) 0 sample.emptyDB))
       "https://example.com")
    "https://example.com".
Proof.
  apply (GetNextURLs_pending_only (H := sample.net_url) (H0 := sample.digest)
           (H1 := sample.parser) (sample.config 3)
           (start (sample.config 3) 0 sample.emptyDB)
           (start (sample.config 3) 0 sample.emptyDB)
           4 [sample.entry "https://example.com" 100 0]
           (sample.entry "https://example.com" 100 0)).
  - apply reachable_start.
  - vm_compute. reflexivity.
  - apply list_elem_of_here.
Defined.

(** The claim of C7 fails for a negative [maxDepth]: the start URL is put
    into the worker channel without the depth test, and a worker receives
    it at depth 0. *)
Lemma start_URL_handed_beyond_maxDepth :
  ~ (forall s,
       @reachable sample.net_url sample.digest sample.parser
         (sample.config (-1)) (start (sample.config (-1)) 0 sample.emptyDB) s ->
       spec.handedWithinDepth (sample.config (-1)) s).
Proof.
  intros Hall.
  set (cfg := sample.config (-1)).
  set (s0 := start cfg 0 sample.emptyDB).
  assert (T1 : step (H := sample.net_url) (H0 := sample.digest)
                 (H1 := sample.parser) cfg s0
                 (with_worker 0 (Received (initialURL cfg))
                    (with_channel [] (nextURLs s0) s0))).
  { apply step_receive; reflexivity. }
  pose proof (reachable_step _ _ _ _
                (reachable_start (H := sample.net_url) (H0 := sample.digest)
                   (H1 := sample.parser) cfg s0) T1) as R1.
  specialize (Hall _ R1 0%nat (Received (initialURL cfg)) (initialURL cfg)
                eq_refl eq_refl).
  simpl in Hall. lia.
Qed.

(** C7, amended. In a crawl with [maxDepth] at least 0, on a queue table
    whose depths are of type INTEGER: every entry a worker has in hand,
    the start URL included, has a depth of at most [maxDepth], and every
    link found on the page of such an entry is an entry one level deeper,
    with the page as its parent. (The start URL is handed out at depth 0
    without the depth test, whatever [maxDepth] is.) *)
Theorem depth_propagation `{url.Package} `{md5.Package} `{goquery.Parser}
    (cfg : Config) (now : Z) (db0 : database.PostgresDB) (s : State) :
  0 <= maxDepth cfg ->
  spec.integerDepths db0 ->
  reachable cfg (start cfg now db0) s ->
  spec.handedWithinDepth cfg s /\
  (forall i w e fetched now' elapsed result dd link,
     pool s !! i = Some w -> inHand w = Some e ->
     afterRequest e fetched now' elapsed (detector s) = Some (result, dd) ->
     link ∈ Links result ->
     Depth link = Depth e + 1 /\ Parent link = URL e) /\
  (forall doc baseURL pageContext parentDepth link,
     link ∈ extractSmartLinks doc baseURL pageContext parentDepth ->
     Depth link = parentDepth +i 1 /\ Parent link = baseURL).
Proof.
  intros Hmax Hdb0 Hreach.
  pose proof (reachable_depthInvariant cfg _ _ Hreach
                (start_depthInvariant cfg now db0 Hmax Hdb0))
    as (_ & _ & _ & Hpool).
  assert (Hlinks : forall doc baseURL pageContext parentDepth link,
            link ∈ extractSmartLinks doc baseURL pageContext parentDepth ->
            Depth link = parentDepth +i 1 /\ Parent link = baseURL).
  { intros doc baseURL pageContext parentDepth link Hin.
    apply extractSmartLinks_elem in Hin as (n & _ & Hlink).
    apply linkOf_Some in Hlink as (_ & _ & Hd & Hp & _). now split. }
  split; [| split; [| exact Hlinks]].
  - intros i w e Hi He. exact (proj2 (Hpool _ _ _ Hi He)).
  - intros i w e fetched now' elapsed result dd link Hi He Hafter Hin.
    destruct (afterRequest_links _ _ _ _ _ _ _ _ Hafter Hin)
      as (doc & pageContext & Hlink).
    destruct (Hlinks _ _ _ _ _ Hlink) as (Hd & Hp).
    split; [| exact Hp].
    rewrite Hd. apply add_one_int4. exact (proj1 (Hpool _ _ _ Hi He)).
Qed.

(** The sample crawl with depth 3, when the first worker has the start URL
    in hand; and the links of the sample page found at depth 2. *)
Lemma depth_propagation_witness :
  (spec.handedWithinDepth (sample.config 3) (sample.received 3) /\
   (forall i w e fetched now' elapsed result dd link,
      pool (sample.received 3) !! i = Some w -> inHand w = Some e ->
      @afterRequest sample.net_url sample.digest sample.parser
        e fetched now' elapsed (detector (sample.received 3))
        = Some (result, dd) ->
      link ∈ Links result ->
      Depth link = Depth e + 1 /\ Parent link = URL e) /\
   (forall doc baseURL pageContext parentDepth link,
      link ∈ @extractSmartLinks sample.net_url doc baseURL pageContext
               parentDepth ->
      Depth link = parentDepth +i 1 /\ Parent link = baseURL)) /\
  List.map Depth
    (@extractSmartLinks sample.net_url sample.twoLinks "https://example.com"
       (sample.contextOf 0.5) 2) = [3; 3].
Proof.
  split.
  - apply (depth_propagation (H := sample.net_url) (H0 := sample.digest)
             (H1 := sample.parser) (sample.config 3) 0 sample.emptyDB
             (sample.received 3)).
    + vm_compute. discriminate.
    + intros url row Hrow. simpl in Hrow. rewrite lookup_empty in Hrow.
      discriminate.
    + eapply reachable_step; [apply reachable_start |].
      apply (step_receive (H := sample.net_url) (H0 := sample.digest)
               (H1 := sample.parser) (sample.config 3)
               (start (sample.config 3) 0 sample.emptyDB) 0
               (initialURL (sample.config 3)) []); reflexivity.
  - vm_compute. reflexivity.
Defined.

(** ** Rounding in binary64

    What the link density needs of the specification of binary64
    arithmetic: rounding a mantissa that is not negative never gives a
    NaN, and an [int] converts to a finite float. *)

Lemma digits2_size (p : positive) : digits2_pos p = Pos.size p.
Proof. induction p; simpl; congruence. Qed.

Lemma Zdigits2_log2 (x : Z) : 0 < x -> Zdigits2 x = Z.log2 x + 1.
Proof.
  destruct x as [| p | p]; try lia. intros _. simpl.
  rewrite digits2_size. destruct p; simpl; lia.
Qed.

Lemma Zdigits2_nonneg (x : Z) : 0 <= Zdigits2 x.
Proof. destruct x; simpl; lia. Qed.

Lemma Zdigits2_mono (x y : Z) : 0 <= x <= y -> Zdigits2 x <= Zdigits2 y.
Proof.
  intros [Hx Hxy]. destruct (Z.eq_dec x 0) as [-> | Hne].
  - apply Zdigits2_nonneg.
  - rewrite !Zdigits2_log2 by lia.
    pose proof (Z.log2_le_mono x y Hxy). lia.
Qed.

Lemma Zdigits2_succ (x : Z) : 0 <= x -> Zdigits2 (x + 1) <= Zdigits2 x + 1.
Proof.
  intros Hx. destruct (Z.eq_dec x 0) as [-> | Hne]; [simpl; lia |].
  rewrite !Zdigits2_log2 by lia.
  pose proof (Z.log2_succ_le x). replace (x + 1) with (Z.succ x) by lia. lia.
Qed.

Lemma shr_1_m (mrs : shr_record) :
  0 <= shr_m mrs -> shr_m (shr_1 mrs) = Z.shiftr (shr_m mrs) 1.
Proof.
  destruct mrs as [m r s]. simpl. intros Hm.
  rewrite <- Z.div2_spec.
  destruct m as [| [p | p |] | p]; try reflexivity; lia.
Qed.

Lemma iter_shr_1_m (n : positive) : forall mrs,
  0 <= shr_m mrs ->
  shr_m (SpecFloat.iter_pos shr_1 n mrs) = Z.shiftr (shr_m mrs) (Z.pos n).
Proof.
  induction n as [n IH | n IH |]; intros mrs Hm; simpl.
  - assert (H1 : 0 <= shr_m (shr_1 mrs))
      by (rewrite shr_1_m by exact Hm; apply Z.shiftr_nonneg; exact Hm).
    assert (H2 : 0 <= shr_m (SpecFloat.iter_pos shr_1 n (shr_1 mrs)))
      by (rewrite IH by exact H1; apply Z.shiftr_nonneg; exact H1).
    rewrite IH by exact H2. rewrite IH by exact H1. rewrite shr_1_m by exact Hm.
    rewrite !Z.shiftr_shiftr by lia. f_equal. lia.
  - assert (H1 : 0 <= shr_m (SpecFloat.iter_pos shr_1 n mrs))
      by (rewrite IH by exact Hm; apply Z.shiftr_nonneg; exact Hm).
    rewrite IH by exact H1. rewrite IH by exact Hm.
    rewrite Z.shiftr_shiftr by lia. f_equal. lia.
  - apply shr_1_m, Hm.
Qed.

Lemma shr_record_of_loc_m (m : Z) (l : location) :
  shr_m (shr_record_of_loc m l) = m.
Proof. destruct l as [| []]; reflexivity. Qed.

(** [shr_fexp] shifts by the number of digits beyond the format. *)
Lemma shr_fexp_eq (m e : Z) (l : location) :
  0 <= m ->
  let k := Z.max 0 (fexp prec emax (Zdigits2 m + e) - e) in
  shr_m (fst (shr_fexp prec emax m e l)) = Z.shiftr m k /\
  snd (shr_fexp prec emax m e l) = e + k.
Proof.
  intros Hm k. unfold shr_fexp, shr. subst k.
  destruct (fexp prec emax (Zdigits2 m + e) - e) as [| n | n]; simpl.
  - rewrite shr_record_of_loc_m, Z.shiftr_0_r. split; [reflexivity | lia].
  - rewrite iter_shr_1_m by (rewrite shr_record_of_loc_m; exact Hm).
    rewrite shr_record_of_loc_m. split; reflexivity.
  - rewrite shr_record_of_loc_m, Z.shiftr_0_r. split; [reflexivity | lia].
Qed.

Lemma round_nearest_even_bounds (m : Z) (l : location) :
  m <= round_nearest_even m l <= m + 1.
Proof.
  destruct l as [| []]; simpl; try lia. destruct (Z.even m); lia.
Qed.

(** The two shifts of [binary_round_aux], written out. *)
Lemma binary_round_aux_eq (sx : bool) (mx ex : Z) (lx : location) :
  0 <= mx ->
  let k1 := Z.max 0 (fexp prec emax (Zdigits2 mx + ex) - ex) in
  let m1 := Z.shiftr mx k1 in
  let e1 := ex + k1 in
  exists m2, m1 <= m2 <= m1 + 1 /\
    let k2 := Z.max 0 (fexp prec emax (Zdigits2 m2 + e1) - e1) in
    binary_round_aux prec emax sx mx ex lx =
    match Z.shiftr m2 k2 with
    | Z0 => S754_zero sx
    | Zpos m => if e1 + k2 <=? emax - prec then S754_finite sx m (e1 + k2)
                else S754_infinity sx
    | Zneg _ => S754_nan
    end.
Proof.
  intros Hmx k1 m1 e1. unfold binary_round_aux.
  destruct (shr_fexp_eq mx ex lx Hmx) as (Hm1 & He1).
  destruct (shr_fexp prec emax mx ex lx) as [mrs1 e1'] eqn:H1.
  simpl in Hm1, He1. fold k1 in Hm1, He1. fold m1 in Hm1. fold e1 in He1.
  subst e1'.
  set (m2 := round_nearest_even (shr_m mrs1) (loc_of_shr_record mrs1)).
  assert (Hm2 : m1 <= m2 <= m1 + 1)
    by (unfold m2; rewrite <- Hm1; apply round_nearest_even_bounds).
  assert (H0m1 : 0 <= m1) by (apply Z.shiftr_nonneg; exact Hmx).
  exists m2. split; [exact Hm2 |]. cbv zeta.
  destruct (shr_fexp_eq m2 e1 loc_Exact ltac:(lia)) as (Hm3 & He3).
  destruct (shr_fexp prec emax m2 e1 loc_Exact) as [mrs2 e2] eqn:H2.
  simpl in Hm3, He3. rewrite Hm3, He3. reflexivity.
Qed.


Lemma binary_round_aux_signed (sx : bool) (mx ex : Z) (lx : location) :
  0 <= mx -> GoFloat.signed sx (binary_round_aux prec emax sx mx ex lx).
Proof.
  intros Hmx.
  destruct (binary_round_aux_eq sx mx ex lx Hmx) as (m2 & Hm2 & ->).
  set (k2 := Z.max 0 _).
  assert (H0 : 0 <= Z.shiftr m2 k2).
  { apply Z.shiftr_nonneg.
    pose proof (Z.shiftr_nonneg mx
                  (Z.max 0 (fexp prec emax (Zdigits2 mx + ex) - ex))). lia. }
  destruct (Z.shiftr m2 k2) as [| m | m]; simpl; try reflexivity; [| lia].
  destruct (_ <=? _); reflexivity.
Qed.

Lemma shiftr_pos (x k : Z) : 0 < x -> 0 <= k <= Z.log2 x -> 0 < Z.shiftr x k.
Proof.
  intros Hx Hk. rewrite Z.shiftr_div_pow2 by lia.
  apply Z.div_str_pos. split; [apply Z.pow_pos_nonneg; lia |].
  pose proof (Z.log2_spec x Hx).
  pose proof (Z.pow_le_mono_r 2 k (Z.log2 x) ltac:(lia) ltac:(lia)). lia.
Qed.

Lemma shiftr_le (x k : Z) : 0 <= x -> 0 <= k -> Z.shiftr x k <= x.
Proof.
  intros Hx Hk. rewrite Z.shiftr_div_pow2 by lia.
  apply Z.div_le_upper_bound; [apply Z.pow_pos_nonneg; lia |].
  pose proof (Z.pow_pos_nonneg 2 k ltac:(lia) Hk). nia.
Qed.

Lemma fexp_eq (e : Z) : fexp prec emax e = Z.max (e - 53) (-1074).
Proof. reflexivity. Qed.

(** A positive mantissa with an exponent of at least emin and few enough
    digits rounds to a finite number that is not zero. *)
Lemma binary_round_aux_finite (sx : bool) (mx ex : Z) (lx : location) :
  0 < mx -> -1074 <= ex ->
  ex + Z.max 0 (Zdigits2 mx - 53) + Z.max 0 (Zdigits2 mx - 52) <= 971 ->
  exists m e, binary_round_aux prec emax sx mx ex lx = S754_finite sx m e.
Proof.
  intros Hmx Hex Hbound.
  destruct (binary_round_aux_eq sx mx ex lx ltac:(lia)) as (m2 & Hm2 & ->).
  rewrite !fexp_eq in *. cbv zeta in Hm2.
  pose proof (Zdigits2_log2 mx Hmx) as HD.
  set (D := Zdigits2 mx) in *.
  set (k1 := Z.max 0 (Z.max (D + ex - 53) (-1074) - ex)) in *.
  assert (Hk1 : k1 = Z.max 0 (D - 53)) by (unfold k1; lia).
  pose proof (Z.log2_nonneg mx) as Hlog.
  assert (Hm1 : 0 < Z.shiftr mx k1) by (apply shiftr_pos; lia).
  assert (Hm1le : Z.shiftr mx k1 <= mx) by (apply shiftr_le; lia).
  assert (H0m2 : 0 < m2) by lia.
  pose proof (Zdigits2_log2 m2 H0m2) as HD2.
  assert (HD2le : Zdigits2 m2 <= D + 1).
  { pose proof (Zdigits2_mono m2 (Z.shiftr mx k1 + 1) ltac:(lia)).
    pose proof (Zdigits2_succ (Z.shiftr mx k1) ltac:(lia)).
    pose proof (Zdigits2_mono (Z.shiftr mx k1) mx ltac:(lia)).
    unfold D. lia. }
  set (D2 := Zdigits2 m2) in *.
  set (k2 := Z.max 0 (Z.max (D2 + (ex + k1) - 53) (-1074) - (ex + k1))).
  assert (Hk2 : k2 = Z.max 0 (D2 - 53)) by (unfold k2; lia).
  pose proof (Z.log2_nonneg m2) as Hlog2.
  assert (Hm3 : 0 < Z.shiftr m2 k2) by (apply shiftr_pos; lia).
  destruct (Z.shiftr m2 k2) as [| m | m]; try lia.
  change (emax - prec) with 971.
  destruct (Z.leb_spec (ex + k1 + k2) 971); [eauto | lia].
Qed.

Lemma iter_xO (n p : positive) :
  Z.pos (Pos.iter xO p n) = Z.pos p * 2 ^ Z.pos n.
Proof.
  rewrite <- Z.shiftl_mul_pow2 by lia. simpl.
  apply (Pos.iter_swap_gen _ _ Z.pos xO (Z.mul 2)). reflexivity.
Qed.

(** The conversion of an integer from 1 to 2^63 - 1 is finite, positive
    and not zero. *)
Lemma binary_normalize_finite (n : Z) :
  0 < n < 2 ^ 63 ->
  exists m e, binary_normalize prec emax n 0 false = S754_finite false m e.
Proof.
  intros Hn. destruct n as [| p | p]; try lia.
  unfold binary_normalize, binary_round, shl_align.
  rewrite fexp_eq.
  pose proof (Zdigits2_log2 (Z.pos p) ltac:(lia)) as HD.
  change (Zdigits2 (Z.pos p)) with (Z.pos (digits2_pos p)) in HD.
  pose proof (Z.log2_spec (Z.pos p) ltac:(lia)) as Hspec.
  pose proof (Z.log2_nonneg (Z.pos p)) as Hlog.
  assert (Hlt : Z.log2 (Z.pos p) < 63)
    by (apply Z.log2_lt_pow2; lia).
  set (D := Z.pos (digits2_pos p)) in *.
  replace (D + 0) with D by lia.
  destruct (Z.max (D - 53) (-1074) - 0) as [| d | d] eqn:Hd.
  - apply binary_round_aux_finite; try lia.
    change (Zdigits2 (Z.pos p)) with D. lia.
  - apply binary_round_aux_finite; try lia.
    change (Zdigits2 (Z.pos p)) with D. lia.
  - apply binary_round_aux_finite; try lia.
    assert (Hmz : Z.pos (Pos.iter xO p d) = Z.pos p * 2 ^ Z.pos d)
      by apply iter_xO.
    assert (Hd' : Z.pos d = 53 - D) by lia.
    assert (Hlt53 : Z.pos (Pos.iter xO p d) < 2 ^ 53).
    { rewrite Hmz, Hd'.
      replace 53 with (D + (53 - D)) at 2 by lia.
      rewrite Z.pow_add_r by lia.
      apply Z.mul_lt_mono_pos_r; [apply Z.pow_pos_nonneg; lia |].
      replace D with (Z.succ (Z.log2 (Z.pos p))) by lia. lia. }
    assert (Hdig : Zdigits2 (Z.pos (Pos.iter xO p d)) <= 53).
    { rewrite Zdigits2_log2 by lia.
      pose proof (proj1 (Z.log2_lt_pow2 (Z.pos (Pos.iter xO p d)) 53
                           ltac:(lia)) Hlt53). lia. }
    lia.
Qed.


Lemma float64_of_int_zero :
  Prim2SF (GoFloat.float64_of_int 0) = S754_zero false.
Proof. reflexivity. Qed.

Lemma float64_of_int_positive (n : Z) :
  0 < n < 2 ^ 63 ->
  exists m e, Prim2SF (GoFloat.float64_of_int n) = S754_finite false m e.
Proof.
  intros Hn. unfold GoFloat.float64_of_int.
  destruct (Z.ltb_spec n 0); [lia |].
  rewrite of_uint63_spec, Uint63.of_Z_spec.
  rewrite Z.mod_small by (change Uint63.wB with (2 ^ 63); lia).
  now apply binary_normalize_finite.
Qed.

(** A quotient of a float that is zero or positive by a positive float is
    zero, positive or infinite. *)
Lemma SFdiv_signed (x y : spec_float) (my : positive) (ey : Z) :
  (x = S754_zero false \/ exists mx ex, x = S754_finite false mx ex) ->
  y = S754_finite false my ey ->
  GoFloat.signed false (SFdiv prec emax x y).
Proof.
  intros [-> | (mx & ex & ->)] ->; [reflexivity |].
  unfold SFdiv, SFdiv_core_binary.
  set (s := _ - _ - _).
  set (m' := match s with Z.pos _ => Z.shiftl (Z.pos mx) s | 0 => Z.pos mx
             | Z.neg _ => 0 end).
  assert (Hm' : 0 <= m').
  { unfold m'. destruct s; try lia. apply Z.shiftl_nonneg. lia. }
  destruct (Z.div_eucl m' (Z.pos my)) as [q r] eqn:Hqr.
  apply binary_round_aux_signed.
  assert (Hq : q = m' / Z.pos my) by (unfold Z.div; now rewrite Hqr).
  rewrite Hq. apply Z.div_pos; lia.
Qed.

(** A float that is zero, positive or infinite and not above a positive
    bound is between zero and the bound. *)
Lemma SF_not_above (m1 : positive) (e1 : Z) (r : spec_float) :
  GoFloat.signed false r ->
  SFltb (S754_finite false m1 e1) r = false ->
  SFleb (S754_zero false) r = true /\
  SFleb r (S754_finite false m1 e1) = true.
Proof.
  destruct r as [s | s | | s m e]; cbn [GoFloat.signed]; intros Hs Hlt;
    try contradiction; subst s.
  - split; reflexivity.
  - discriminate.
  - split; [reflexivity |].
    unfold SFltb, SFleb, SFcompare in *.
    rewrite (Z.compare_antisym e1 e).
    destruct (e1 ?= e) eqn:Hc; cbn [CompOpp] in *;
      try reflexivity; try discriminate.
    change (Pos.compare_cont Eq m m1)
      with (Pos.compare_cont (CompOpp Eq) m m1).
    rewrite <- (Pos.compare_cont_antisym m1 m Eq).
    destruct (Pos.compare_cont Eq m1 m);
      cbn [CompOpp]; try reflexivity; discriminate.
Qed.

(** The cap: a float that is zero, positive or infinite, replaced by 1
    when it is more than 1, is between 0 and 1. *)
Lemma capped_range (r : float) :
  GoFloat.signed false (Prim2SF r) ->
  let capped := if (1 <? r)%float then 1%float else r in
  (0 <=? capped)%float = true /\ (capped <=? 1)%float = true.
Proof.
  intros Hr. cbv zeta.
  destruct (1 <? r)%float eqn:Hlt; [split; vm_compute; reflexivity |].
  rewrite ltb_spec in Hlt. rewrite !leb_spec.
  assert (H1 : Prim2SF 1 = S754_finite false 4503599627370496 (-52))
    by (vm_compute; reflexivity).
  assert (H0 : Prim2SF 0 = S754_zero false) by (vm_compute; reflexivity).
  rewrite H1 in *. rewrite H0.
  now apply SF_not_above.
Qed.

(** ** Link density *)

(** C9. For a document whose texts have lengths within [int]: the link
    density is 0 when the body text is empty, and the division is then not
    evaluated; otherwise it is the float64 quotient of the length of the
    anchor text by the length of the body text, replaced by 1.0 when it is
    more than 1.0; in both cases it is at least 0 and at most 1. *)
Theorem calculateLinkDensity_range (doc : goquery.Document) :
  let textLength :=
    strings.len (goquery.Text (goquery.Find doc (goquery.ByTag "body"))) in
  let linkTextLength :=
    strings.len (goquery.Text (goquery.Find doc (goquery.ByTag "a"))) in
  textLength < 2 ^ 63 ->
  linkTextLength < 2 ^ 63 ->
  (textLength = 0 -> calculateLinkDensity doc = 0%float) /\
  (textLength <> 0 ->
   calculateLinkDensity doc =
   let density :=
     (GoFloat.float64_of_int linkTextLength /
      GoFloat.float64_of_int textLength)%float in
   if (1 <? density)%float then 1%float else density) /\
  (0 <=? calculateLinkDensity doc)%float = true /\
  (calculateLinkDensity doc <=? 1)%float = true.
Proof.
  intros textLength linkTextLength Htext Hlink.
  unfold calculateLinkDensity. fold textLength linkTextLength. cbv zeta.
  assert (H0text : 0 <= textLength) by (unfold textLength, strings.len; lia).
  assert (H0link : 0 <= linkTextLength)
    by (unfold linkTextLength, strings.len; lia).
  destruct (Z.eqb_spec textLength 0) as [Hz | Hnz].
  - split; [reflexivity |]. split; [contradiction |]. split; reflexivity.
  - split; [contradiction |]. split; [reflexivity |].
    apply capped_range. rewrite div_spec.
    destruct (float64_of_int_positive textLength ltac:(lia)) as (my & ey & Hy).
    apply (SFdiv_signed _ _ my ey); [| exact Hy].
    destruct (Z.eq_dec linkTextLength 0) as [-> | Hl].
    + left. reflexivity.
    + right. apply float64_of_int_positive. lia.
Qed.

(** The page with no body text has density 0; the sample page, whose body
    text is all anchor text, has density 1. *)
Lemma calculateLinkDensity_range_witness :
  calculateLinkDensity sample.emptyPage = 0%float /\
  (0 <=? calculateLinkDensity sample.twoLinks)%float = true /\
  (calculateLinkDensity sample.twoLinks <=? 1)%float = true.
Proof.
  split.
  - apply (calculateLinkDensity_range sample.emptyPage);
      vm_compute; reflexivity.
  - apply (calculateLinkDensity_range sample.twoLinks);
      vm_compute; reflexivity.
Defined.

(** * Further properties of the code *)

(** ** The queue table *)

Lemma execAll_fits now urls : forall q,
  match database.execAll now q urls with
  | inl err => err = database.integer_out_of_range /\
               forallb facts.fits urls = false
  | inr _ => forallb facts.fits urls = true
  end.
Proof.
  induction urls as [| e rest IH]; intros q; simpl; [reflexivity |].
  unfold database.upsert. fold (facts.fits e).
  destruct (facts.fits e); simpl; [| now split].
  match goal with |- context [database.execAll now ?q' rest] =>
    exact (IH q') end.
Qed.


Lemma maxPriority_ge url urls : forall existing,
  existing <= spec.maxPriority url existing urls.
Proof.
  unfold spec.maxPriority.
  induction urls as [| e rest IH]; intros existing; simpl; [lia |].
  destruct (String.eqb (URL e) url).
  - pose proof (IH (Z.max existing (Priority e))). lia.
  - apply IH.
Qed.

Lemma maxPriority_elem url urls : forall existing e,
  e ∈ urls -> URL e = url ->
  Priority e <= spec.maxPriority url existing urls.
Proof.
  induction urls as [| e' rest IH]; intros existing e Hin Hurl.
  - inversion Hin.
  - apply elem_of_cons in Hin as [<- | Hin].
    + unfold spec.maxPriority. simpl. rewrite Hurl, String.eqb_refl.
      pose proof (maxPriority_ge url rest (Z.max existing (Priority e))).
      unfold spec.maxPriority in *. lia.
    + unfold spec.maxPriority. simpl.
      destruct (String.eqb (URL e') url); now apply IH.
Qed.

Lemma execAll_lookup now urls : forall q q' url,
  database.execAll now q urls = inr q' ->
  q' !! url =
  match q !! url, facts.firstFor url urls with
  | Some row, _ =>
      Some (database.set_priority
              (spec.maxPriority url (database.priority row) urls) row)
  | None, Some e =>
      Some (facts.inserted now (spec.maxPriority url (Priority e) urls) e)
  | None, None => None
  end.
Proof.
  induction urls as [| e rest IH]; intros q q' url Hex.
  - simpl in Hex. injection Hex as <-.
    destruct (q !! url) as [row |]; [| reflexivity].
    unfold spec.maxPriority. simpl. now destruct row.
  - destruct (q !! url) as [row |] eqn:Hrow.
    + exact (execAll_present _ _ _ _ _ _ Hex Hrow).
    + simpl in Hex.
      destruct (database.upsert now q e) as [err | q1] eqn:Hup;
        [discriminate |].
      rewrite (IH _ _ url Hex).
      unfold database.upsert in Hup.
      destruct (database.int4 (Priority e) && database.int4 (Depth e));
        [| discriminate].
      injection Hup as <-.
      unfold facts.firstFor. simpl.
      destruct (String.eqb_spec (URL e) url) as [-> | Hne].
      * rewrite Hrow, lookup_insert_eq.
        unfold spec.maxPriority, facts.inserted. simpl.
        rewrite ?String.eqb_refl, Z.max_id. reflexivity.
      * assert (Hq1 : forall v, <[URL e := v]> q !! url = None)
          by (intros v; now rewrite lookup_insert_ne).
        destruct (q !! URL e); rewrite Hq1;
          unfold spec.maxPriority; simpl;
          rewrite ?(proj2 (String.eqb_neq _ _) Hne); reflexivity.
Qed.

(** X2. After an [AddToQueue] that returns no error, the row of any URL is
    known: a URL that was queued keeps its row with the greatest priority;
    a URL that was not queued and is in the batch gets a pending row with
    the depth and the parent of its first entry in the batch, the time of
    the call and the greatest priority of its entries; any other URL is
    still absent. *)
Theorem AddToQueue_lookup
    (now : Z) (p p' : database.PostgresDB) (urls : list URLPriority)
    (url : string) :
  database.AddToQueue now p urls = (p', None) ->
  database.crawl_queue p' !! url =
  match database.crawl_queue p !! url, facts.firstFor url urls with
  | Some row, _ =>
      Some (database.set_priority
              (spec.maxPriority url (database.priority row) urls) row)
  | None, Some e =>
      Some (facts.inserted now (spec.maxPriority url (Priority e) urls) e)
  | None, None => None
  end.
Proof.
  unfold database.AddToQueue. intros Hadd.
  destruct (database.execAll now (database.crawl_queue p) urls) as [err | q']
    eqn:Hex; [discriminate |].
  injection Hadd as <-. simpl. exact (execAll_lookup _ _ _ _ url Hex).
Qed.

(** The URL of the sample found first at depth 1 with priority 30 and then
    at depth 4 with priority 80, in one batch, on an empty queue. *)
Lemma AddToQueue_lookup_witness :
  database.crawl_queue (sample.enqueued [sample.low; sample.high])
    !! "https://example.com/a" =
  Some (facts.inserted 1 80 sample.low).
Proof.
  rewrite (AddToQueue_lookup 1 sample.emptyDB
             (sample.enqueued [sample.low; sample.high])
             [sample.low; sample.high] "https://example.com/a").
  - vm_compute. reflexivity.
  - vm_compute. reflexivity.
Defined.

Lemma maxPriority_absorb url urls : forall existing,
  (forall e, e ∈ urls -> URL e = url -> Priority e <= existing) ->
  spec.maxPriority url existing urls = existing.
Proof.
  unfold spec.maxPriority.
  induction urls as [| e rest IH]; intros existing Hle; simpl; [reflexivity |].
  assert (Hrest : forall e', e' ∈ rest -> URL e' = url ->
                             Priority e' <= existing)
    by (intros e' Hin; apply Hle; now apply list_elem_of_further).
  destruct (String.eqb_spec (URL e) url) as [Hu | Hu].
  - rewrite Z.max_l by (apply Hle; [apply list_elem_of_here | exact Hu]).
    now apply IH.
  - now apply IH.
Qed.

(** X3. [AddToQueue] is idempotent: after a call that returned no error,
    the same batch again, at any later time, returns no error and leaves
    every row as it is. *)
Theorem AddToQueue_idempotent
    (now1 now2 : Z) (p p1 : database.PostgresDB) (urls : list URLPriority) :
  database.AddToQueue now1 p urls = (p1, None) ->
  database.AddToQueue now2 p1 urls = (p1, None).
Proof.
  unfold database.AddToQueue. intros Hadd.
  destruct (database.execAll now1 (database.crawl_queue p) urls) as [err | q1]
    eqn:H1; [discriminate |].
  injection Hadd as <-. simpl.
  pose proof (execAll_fits now1 urls (database.crawl_queue p)) as Hfits1.
  rewrite H1 in Hfits1.
  pose proof (execAll_fits now2 urls q1) as Hfits2.
  destruct (database.execAll now2 q1 urls) as [err | q2] eqn:H2.
  - destruct Hfits2 as (_ & Hf). congruence.
  - f_equal. f_equal. apply map_eq. intros url.
    rewrite (execAll_lookup _ _ _ _ url H2).
    pose proof (execAll_lookup _ _ _ _ url H1) as L1.
    destruct (q1 !! url) as [row1 |] eqn:E1.
    + f_equal.
      assert (Hmax : forall e, e ∈ urls -> URL e = url ->
                Priority e <= database.priority row1).
      { intros e Hin Hu.
        destruct (database.crawl_queue p !! url) as [row |].
        - injection L1 as ->. simpl. now apply maxPriority_elem.
        - destruct (facts.firstFor url urls) as [e0 |]; [| discriminate].
          injection L1 as ->. simpl. now apply maxPriority_elem. }
      rewrite (maxPriority_absorb _ _ _ Hmax). now destruct row1.
    + destruct (database.crawl_queue p !! url); [discriminate |].
      destruct (facts.firstFor url urls); [discriminate | reflexivity].
Qed.

Lemma AddToQueue_idempotent_witness :
  database.AddToQueue 2 (sample.enqueued [sample.low; sample.high])
    [sample.low; sample.high] =
  (sample.enqueued [sample.low; sample.high], None).
Proof.
  apply (AddToQueue_idempotent 1 2 sample.emptyDB).
  vm_compute. reflexivity.
Defined.

(** ** The order of the queue *)

#[local] Instance queue_order_total : Total database.queue_order.
Proof. intros a b. unfold database.queue_order. lia. Qed.

#[local] Instance queue_order_trans : Transitive database.queue_order.
Proof. intros a b c. unfold database.queue_order. lia. Qed.

Lemma NoDup_map_filter {A B} (g : A -> B) (f : A -> bool) (l : list A) :
  NoDup (List.map g l) -> NoDup (List.map g (List.filter f l)).
Proof.
  induction l as [| x l IH]; simpl; intros Hnd; [constructor |].
  apply NoDup_cons in Hnd as (Hx & Hnd).
  destruct (f x); simpl; [| now apply IH].
  apply NoDup_cons. split; [| now apply IH].
  intros Hin. apply Hx.
  apply list_elem_of_In, in_map_iff in Hin as (y & Hy & Hin).
  apply filter_In in Hin as (Hin & _).
  apply list_elem_of_In, in_map_iff. eauto.
Qed.

(** The pending rows in the order of the query, before the LIMIT. *)
Lemma pending_sorted (p : database.PostgresDB) :
  let rows :=
    merge_sort database.queue_order
      (List.filter database.pending (map_to_list (database.crawl_queue p))) in
  StronglySorted database.queue_order rows /\
  NoDup (List.map fst rows) /\
  (forall url row,
     (url, row) ∈ rows <->
     database.crawl_queue p !! url = Some row /\
     database.status row = "pending").
Proof.
  cbv zeta. split; [apply StronglySorted_merge_sort; apply _ |]. split.
  - change (NoDup ((merge_sort database.queue_order
                      (List.filter database.pending
                         (map_to_list (database.crawl_queue p)))).*1)).
    rewrite merge_sort_Permutation.
    apply (NoDup_map_filter fst), NoDup_fst_map_to_list.
  - intros url row. rewrite merge_sort_Permutation.
    rewrite list_elem_of_In, filter_In, <- list_elem_of_In.
    rewrite elem_of_map_to_list. unfold database.pending. simpl.
    now rewrite String.eqb_eq.
Qed.

(** X4. [GetNextURLs] is a priority queue over the pending rows: it
    returns at most [limit] entries, no URL twice, in order of priority
    from the greatest down; and a pending row it leaves out is left out
    only because [limit] entries were returned whose priorities are all at
    least its own. A limit of 0 gives no entry, and a negative limit is an
    error. *)
Theorem GetNextURLs_best_first (p : database.PostgresDB) (limit : Z) :
  match database.GetNextURLs p limit with
  | inl err => limit < 0 /\ err = database.negative_limit
  | inr batch =>
      0 <= limit /\
      Z.of_nat (List.length batch) <= limit /\
      NoDup (List.map URL batch) /\
      (forall i j a b,
         (i < j)%nat -> batch !! i = Some a -> batch !! j = Some b ->
         Priority b <= Priority a) /\
      (forall url row,
         database.crawl_queue p !! url = Some row ->
         database.status row = "pending" ->
         url ∉ List.map URL batch ->
         Z.of_nat (List.length batch) = limit /\
         forall a, a ∈ batch -> database.priority row <= Priority a)
  end.
Proof.
  unfold database.GetNextURLs.
  destruct (Z.ltb_spec limit 0) as [Hneg | Hpos]; [now split |].
  destruct (pending_sorted p) as (Hsorted & Hnodup & Hrows).
  set (rows := merge_sort database.queue_order _) in *.
  set (n := Z.to_nat limit).
  assert (Hurls : forall l : list (string * database.QueueRow),
            List.map URL (List.map database.scan l) = List.map fst l).
  { intros l. rewrite List.map_map. apply List.map_ext. now intros []. }
  rewrite <- (take_drop n rows) in Hsorted, Hnodup.
  split; [exact Hpos |]. split; [| split; [| split]].
  - rewrite List.length_map, length_take. lia.
  - rewrite Hurls. rewrite List.map_app in Hnodup.
    now apply NoDup_app in Hnodup as (Hnd & _).
  - intros i j a b Hij Hi Hj.
    apply StronglySorted_app_1_l in Hsorted.
    change (List.map database.scan (take n rows))
      with (database.scan <$> take n rows) in Hi, Hj.
    apply list_lookup_fmap_Some in Hi as (ra & -> & Hi).
    apply list_lookup_fmap_Some in Hj as (rb & -> & Hj).
    simpl.
    assert (Hab : database.queue_order ra rb).
    { revert i j Hij Hi Hj. generalize (take n rows) Hsorted.
      induction 1 as [| x l Hl IH Hall]; intros i j Hij Hi Hj;
        [now rewrite lookup_nil in Hi |].
      destruct i as [| i], j as [| j]; try lia; simpl in Hi, Hj.
      - injection Hi as <-.
        rewrite List.Forall_forall in Hall. apply Hall.
        apply list_elem_of_In. now apply list_elem_of_lookup_2 in Hj.
      - apply (IH i j); [lia | assumption ..]. }
    unfold database.queue_order in Hab. lia.
  - intros url row Hrow Hpending Hout.
    assert (Hin : (url, row) ∈ rows) by now apply Hrows.
    rewrite <- (take_drop n rows) in Hin.
    apply elem_of_app in Hin as [Hin | Hin].
    { exfalso. apply Hout. rewrite Hurls.
      apply list_elem_of_In, in_map_iff. exists (url, row).
      split; [reflexivity | now apply list_elem_of_In]. }
    split.
    + rewrite List.length_map, length_take.
      destruct (Nat.le_gt_cases n (List.length rows)) as [Hle | Hgt]; [lia |].
      rewrite drop_ge in Hin by lia. inversion Hin.
    + intros a Ha.
      apply list_elem_of_In, in_map_iff in Ha as (ra & <- & Ha).
      apply list_elem_of_In in Ha.
      pose proof (StronglySorted_app_1_elem_of _ _ _ _ _ Hsorted Ha Hin)
        as Hord.
      unfold database.queue_order in Hord. simpl in *. lia.
Qed.

(** ** Marking and saving *)

(** X5. [MarkURLProcessed] changes the status of the row of its URL to
    completed and nothing else: the other columns of the row, the other
    rows and the pages table stay as they are; for a URL that is not in the
    queue it changes nothing; and marking twice is marking once. *)
Theorem MarkURLProcessed_one_row (p : database.PostgresDB) (url : string) :
  database.crawl_queue (database.MarkURLProcessed p url) !! url =
    database.set_status "completed" <$> database.crawl_queue p !! url /\
  (forall other, other <> url ->
     database.crawl_queue (database.MarkURLProcessed p url) !! other =
     database.crawl_queue p !! other) /\
  database.pages (database.MarkURLProcessed p url) = database.pages p /\
  (database.crawl_queue p !! url = None ->
   database.MarkURLProcessed p url = p) /\
  database.MarkURLProcessed (database.MarkURLProcessed p url) url =
    database.MarkURLProcessed p url.
Proof.
  destruct p as [q pg]. unfold database.MarkURLProcessed. simpl.
  split; [apply lookup_alter_eq |].
  split; [intros other Hne; apply lookup_alter_ne; congruence |].
  split; [reflexivity |]. split.
  - intros Hnone. f_equal. apply map_eq. intros k.
    rewrite lookup_alter. destruct (decide (url = k)) as [<- | Hne];
      [now rewrite Hnone | reflexivity].
  - f_equal. apply map_eq. intros k.
    destruct (decide (url = k)) as [<- | Hne].
    + rewrite !lookup_alter_eq. now destruct (q !! url).
    + now rewrite !lookup_alter_ne by exact Hne.
Qed.


(** ** Link signals and importance *)



(** X8. The importance of a document is between 0.5 and 1, and what it
    adds to the priority of a link, int(importance * 20), is between 10 and
    20; so for the links of an analysed page the lower bound of the clamp
    never applies: the priority is the sum of the signals and of that
    boost, or 100 if the sum is more. *)
Theorem calculateImportance_boost
    (doc : goquery.Document) (content : string) :
  let importance := calculateImportance doc content in
  let boost := GoFloat.int_of_float64 (importance * 20)%float in
  (0.5 <=? importance)%float = true /\
  (importance <=? 1)%float = true /\
  10 <= boost <= 20 /\
  forall sel,
    calculateLinkPriority sel (AnalyzeContent doc content) =
    Z.min 100 (linkSignals sel + boost).
Proof.
  cbv zeta.
  assert (Hcases :
    (0.5 <=? calculateImportance doc content)%float = true /\
    (calculateImportance doc content <=? 1)%float = true /\
    10 <= GoFloat.int_of_float64 (calculateImportance doc content * 20)%float
       <= 20).
  { unfold calculateImportance. cbv zeta.
    destruct (_ && _); destruct (0 <? _); destruct (0 <? _); destruct (0 <? _);
      vm_compute; repeat split; discriminate. }
  destruct Hcases as (Hlo & Hhi & Hboost).
  split; [exact Hlo |]. split; [exact Hhi |]. split; [exact Hboost |].
  intros sel. rewrite calculateLinkPriority_clamp.
  change (Importance (AnalyzeContent doc content))
    with (calculateImportance doc content).
  pose proof (linkSignals_bounds sel) as Hsig.
  rewrite add_small by (powers; lia). lia.
Qed.

(** ** Extracted links and crawled pages *)

Lemma guessContentType_label (url : string) :
  In (guessContentType url) facts.contentTypes.
Proof.
  unfold guessContentType, facts.contentTypes. cbv zeta.
  destruct (_ || _); [simpl; tauto |].
  destruct (strings.Contains _ "/news/"); [simpl; tauto |].
  destruct (_ || _); simpl; tauto.
Qed.

Lemma omap_length {A B} (f : A -> option B) (l : list A) :
  (List.length (omap f l) <= List.length l)%nat.
Proof.
  induction l as [| x l IH]; [reflexivity |].
  change (omap f (x :: l))
    with (match f x with Some y => y :: omap f l | None => omap f l end).
  destruct (f x); simpl; lia.
Qed.

(** X9. [extractSmartLinks] returns at most one entry for each anchor with
    an href; every entry has a URL that is not empty, a priority between 1
    and 100, and a context with the link density of the page, the priority
    divided by 100 as its importance and one of the four content
    labels. *)
Theorem extractSmartLinks_entries `{url.Package}
    (doc : goquery.Document) (baseURL : string) (pageContext : URLContext)
    (parentDepth : Z) :
  (List.length (extractSmartLinks doc baseURL pageContext parentDepth) <=
   List.length (goquery.Find doc (goquery.ByTagAttr "a" "href")))%nat /\
  forall link,
    link ∈ extractSmartLinks doc baseURL pageContext parentDepth ->
    URL link <> "" /\
    1 <= Priority link <= 100 /\
    LinkDensity (Context link) = LinkDensity pageContext /\
    Importance (Context link) =
      (GoFloat.float64_of_int (Priority link) / 100)%float /\
    In (ContentType (Context link)) facts.contentTypes.
Proof.
  split; [apply omap_length |].
  intros link Hin.
  apply extractSmartLinks_elem in Hin as (n & _ & Hlink).
  pose proof (linkOf_Some _ _ _ _ _ Hlink) as (_ & Hurl & _ & _ & Hprio).
  split; [exact Hurl |]. split.
  { rewrite Hprio, calculateLinkPriority_clamp. lia. }
  unfold linkOf in Hlink.
  destruct (goquery.Attr [n] "href") as [href |]; [| discriminate].
  destruct (_ || _); [discriminate |].
  injection Hlink as <-. simpl.
  repeat split. apply guessContentType_label.
Qed.

Lemma afterRequest_fresh `{url.Package} `{md5.Package} `{goquery.Parser}
    e statusCode contentType body now elapsed dd :
  isRelevantContent contentType = true ->
  mutex dd = sync.unlocked ->
  exists result,
    afterRequest e (Response statusCode contentType (Some body)) now elapsed dd
      = Some (result,
              if seen dd (md5.SumHex body) then dd
              else recorded dd (md5.SumHex body)) /\
    (seen dd (md5.SumHex body) = true ->
     result = skipped "duplicate_content").
Proof.
  intros Hrel Hm. unfold afterRequest. rewrite Hrel. simpl.
  unfold bind. rewrite (IsDuplicate_unlocked dd _ Hm).
  destruct (seen dd (md5.SumHex body)) eqn:Hseen.
  - eexists. split; [reflexivity | reflexivity].
  - destruct (goquery.NewDocumentFromReader body);
      eexists; (split; [reflexivity | discriminate]).
Qed.

(** X10. A body that has been crawled once is not crawled again: after a
    response with a relevant content type has gone through
    [smartCrawlPage], a later response with the same body, for any entry,
    status and relevant content type, is skipped as duplicate content,
    with no page and no links, and leaves the detector as it is. *)
Theorem same_body_skipped `{url.Package} `{md5.Package} `{goquery.Parser}
    (e1 e2 : URLPriority) (status1 status2 : Z) (type1 type2 body : string)
    (now1 now2 elapsed1 elapsed2 : Z) (dd : DuplicateDetector) :
  isRelevantContent type1 = true ->
  isRelevantContent type2 = true ->
  mutex dd = sync.unlocked ->
  exists result1 dd1,
    afterRequest e1 (Response status1 type1 (Some body)) now1 elapsed1 dd
      = Some (result1, dd1) /\
    afterRequest e2 (Response status2 type2 (Some body)) now2 elapsed2 dd1
      = Some (skipped "duplicate_content", dd1).
Proof.
  intros Hrel1 Hrel2 Hm.
  destruct (afterRequest_fresh e1 status1 type1 body now1 elapsed1 dd Hrel1 Hm)
    as (result1 & Hfirst & _).
  set (dd1 := if seen dd (md5.SumHex body) then dd
              else recorded dd (md5.SumHex body)) in *.
  assert (Hm1 : mutex dd1 = sync.unlocked)
    by (unfold dd1; now rewrite IsDuplicate_mutex).
  assert (Hseen1 : seen dd1 (md5.SumHex body) = true).
  { unfold dd1. rewrite IsDuplicate_seen.
    now rewrite bool_decide_eq_true_2. }
  destruct (afterRequest_fresh e2 status2 type2 body now2 elapsed2 dd1 Hrel2 Hm1)
    as (result2 & Hsecond & Hdup).
  rewrite Hseen1 in Hsecond. rewrite (Hdup Hseen1) in Hsecond.
  exists result1, dd1. split; [exact Hfirst | exact Hsecond].
Qed.

Lemma same_body_skipped_witness :
  exists result1 dd1,
    @afterRequest sample.net_url sample.digest sample.parser
      (sample.entry "https://example.com" 100 0)
      (Response 200 "text/html; charset=utf-8" (Some "<html>"))
      0 12 NewDuplicateDetector = Some (result1, dd1) /\
    @afterRequest sample.net_url sample.digest sample.parser
      (sample.entry "https://example.com/copy" 50 1)
      (Response 200 "text/html" (Some "<html>"))
      5 9 dd1 = Some (skipped "duplicate_content", dd1).
Proof.
  apply (same_body_skipped (H := sample.net_url) (H0 := sample.digest)
           (H1 := sample.parser)); reflexivity.
Defined.

(** X11. What [smartCrawlPage] returns is well formed: a result with a
    page is neither skipped nor an error; its page has the URL, the depth
    and the parent of the entry, the digest of the body as its hash and the
    length of the body as its size; the URL was not crawled and the hash
    was not seen before, and the hash is recorded now. A result with no
    page is skipped or an error and has no links, and forgets no hash. So
    the results processor never meets a result that has neither a flag nor
    a page. *)
Theorem smartCrawlPage_result `{url.Package} `{md5.Package} `{goquery.Parser}
    (db : database.PostgresDB) (e : URLPriority) (fetched : Fetched)
    (now elapsed : Z) (dd dd' : DuplicateDetector) (result : smartCrawlResult) :
  mutex dd = sync.unlocked ->
  smartCrawlPage db e fetched now elapsed dd = Some (result, dd') ->
  mutex dd' = sync.unlocked /\
  match ResultPage result with
  | Some page =>
      Skipped result = false /\ Error result = false /\
      database.IsURLCrawled db (URL e) = false /\
      PageURL page = URL e /\ PageDepth page = Depth e /\
      ParentURL page = Parent e /\
      seen dd (Hash page) = false /\ dd' = recorded dd (Hash page) /\
      exists statusCode contentType body,
        fetched = Response statusCode contentType (Some body) /\
        isRelevantContent contentType = true /\
        Hash page = md5.SumHex body /\ Size page = strings.len body /\
        Content page = body /\ StatusCode page = statusCode
  | None =>
      Links result = [] /\
      xorb (Skipped result) (Error result) = true /\
      forall hash, seen dd hash = true -> seen dd' hash = true
  end.
Proof.
  intros Hm. unfold smartCrawlPage.
  destruct (database.IsURLCrawled db (URL e)) eqn:Hcrawled.
  { intros [= <- <-]. simpl. auto. }
  destruct fetched as [| statusCode contentType body].
  { intros [= <- <-]. simpl. auto. }
  destruct (isRelevantContent contentType) eqn:Hrel.
  2:{ unfold afterRequest. rewrite Hrel. intros [= <- <-]. simpl. auto. }
  destruct body as [body |].
  2:{ unfold afterRequest. rewrite Hrel. intros [= <- <-]. simpl. auto. }
  unfold afterRequest. rewrite Hrel. simpl. unfold bind.
  rewrite (IsDuplicate_unlocked dd _ Hm).
  destruct (seen dd (md5.SumHex body)) eqn:Hseen.
  { intros [= <- <-]. simpl. auto. }
  assert (Hkeep : forall hash, seen dd hash = true ->
            seen (recorded dd (md5.SumHex body)) hash = true)
    by (intros hash Hs; rewrite seen_recorded, Hs; apply orb_true_r).
  destruct (goquery.NewDocumentFromReader body) as [doc |].
  - intros [= <- <-]. simpl. split; [exact Hm |].
    repeat split; try assumption.
    exists statusCode, contentType, body. repeat split. exact Hrel.
  - intros [= <- <-]. simpl. auto.
Qed.

Lemma smartCrawlPage_result_witness :
  exists result dd',
    @smartCrawlPage sample.net_url sample.digest sample.parser
      sample.emptyDB (sample.entry "https://example.com" 100 0)
      (Response 200 "text/html" (Some "<html>")) 0 12 NewDuplicateDetector
      = Some (result, dd') /\
    mutex dd' = sync.unlocked /\
    (PageURL <$> ResultPage result) = Some "https://example.com" /\
    List.map Priority (Links result) = [82; 47].
Proof.
  eexists. eexists. split; [vm_compute; reflexivity |].
  split.
  - apply (smartCrawlPage_result (H := sample.net_url) (H0 := sample.digest)
             (H1 := sample.parser) sample.emptyDB
             (sample.entry "https://example.com" 100 0)
             (Response 200 "text/html" (Some "<html>")) 0 12
             NewDuplicateDetector _ _ eq_refl eq_refl).
  - split; reflexivity.
Defined.

(** ** Processing results *)




(** ** Invariants of the crawl *)

Lemma maxPriority_range url urls : forall existing,
  1 <= existing <= 100 ->
  (forall e, e ∈ urls -> 1 <= Priority e <= 100) ->
  1 <= spec.maxPriority url existing urls <= 100.
Proof.
  unfold spec.maxPriority.
  induction urls as [| e rest IH]; intros existing He Hall; simpl; [exact He |].
  assert (Hrest : forall e', e' ∈ rest -> 1 <= Priority e' <= 100)
    by (intros e' Hin; apply Hall; now apply list_elem_of_further).
  pose proof (Hall e (list_elem_of_here _ _)) as Hp.
  destruct (String.eqb (URL e) url); apply IH; try assumption; lia.
Qed.

Lemma firstFor_Some url urls e :
  facts.firstFor url urls = Some e -> e ∈ urls /\ URL e = url.
Proof.
  unfold facts.firstFor. intros Hfind.
  apply List.find_some in Hfind as (Hin & Heq).
  split; [now apply list_elem_of_In | now apply String.eqb_eq].
Qed.

Lemma AddToQueue_bounded cfg now p urls :
  facts.boundedQueue cfg p ->
  (forall e, e ∈ urls -> facts.bounded cfg (Priority e) (Depth e)) ->
  facts.boundedQueue cfg (fst (database.AddToQueue now p urls)).
Proof.
  unfold database.AddToQueue. intros Hp Hurls.
  destruct (database.execAll now (database.crawl_queue p) urls) as [err | q']
    eqn:Hex; simpl; [exact Hp |].
  intros url row. simpl. rewrite (execAll_lookup _ _ _ _ url Hex).
  assert (Hprio : forall e, e ∈ urls -> 1 <= Priority e <= 100)
    by (intros e He; apply (Hurls e He)).
  destruct (database.crawl_queue p !! url) as [old |] eqn:Hold.
  - intros [= <-]. destruct (Hp _ _ Hold) as (Ho & Hd).
    split; [simpl; now apply maxPriority_range | exact Hd].
  - destruct (facts.firstFor url urls) as [e |] eqn:Hfirst; [| discriminate].
    intros [= <-]. apply firstFor_Some in Hfirst as (Hin & _).
    destruct (Hurls e Hin) as (Hpe & Hde).
    split; [simpl; now apply maxPriority_range | exact Hde].
Qed.

Lemma MarkURLProcessed_bounded cfg p url :
  facts.boundedQueue cfg p ->
  facts.boundedQueue cfg (database.MarkURLProcessed p url).
Proof.
  unfold facts.boundedQueue. simpl. intros Hp url' row.
  rewrite lookup_alter. destruct (decide (url = url')) as [-> | Hne].
  - destruct (database.crawl_queue p !! url') as [old |] eqn:Hold;
      simpl; [| discriminate].
    intros [= <-]. exact (Hp _ _ Hold).
  - apply Hp.
Qed.

Lemma processSmartResult_bounded cfg now p st result :
  facts.boundedQueue cfg p ->
  (forall link, link ∈ Links result ->
     facts.bounded cfg (Priority link) (Depth link)) ->
  facts.boundedQueue cfg (fst (processSmartResult now p st result)).
Proof.
  intros Hp Hlinks. unfold processSmartResult.
  destruct (Error result); [exact Hp |].
  destruct (Skipped result); [exact Hp |].
  destruct (ResultPage result) as [page |]; [| exact Hp].
  simpl. destruct (0 <? Z.of_nat (List.length (Links result)));
    [| exact Hp].
  now apply AddToQueue_bounded.
Qed.

Section CrawlInvariants.
Context `{url.Package} `{md5.Package} `{goquery.Parser}.
Variable cfg : Config.

Lemma onTheWay_insert (P : URLPriority -> Prop) (s : State) q next i w :
  (forall e, facts.onTheWay s e -> P e) ->
  (forall e, e ∈ next -> P e) ->
  (forall e, e ∈ q -> P e) ->
  (forall e, inHand w = Some e -> P e) ->
  forall e, facts.onTheWay (with_worker i w (with_channel q next s)) e -> P e.
Proof.
  intros Hs Hnext Hq Hw e [He | [He | (j & w' & Hj & He)]]; simpl in *.
  - now apply Hnext.
  - now apply Hq.
  - apply list_lookup_insert_Some in Hj as [(_ & <- & _) | (_ & Hj)].
    + now apply Hw.
    + apply Hs. right. right. eauto.
Qed.

Lemma step_boundsInvariant s s' :
  step cfg s s' ->
  spec.depthInvariant cfg s ->
  facts.boundsInvariant cfg s -> facts.boundsInvariant cfg s'.
Proof.
  intros Hstep (_ & _ & _ & Hhand) (Hdb & Hway & Hres).
  assert (Hnext : forall e, e ∈ nextURLs s ->
            facts.bounded cfg (Priority e) (Depth e))
    by (intros e He; apply Hway; now left).
  assert (Hqueue : forall e, e ∈ urlQueue s ->
            facts.bounded cfg (Priority e) (Depth e))
    by (intros e He; apply Hway; right; now left).
  assert (Hpool : forall i w e, pool s !! i = Some w -> inHand w = Some e ->
            facts.bounded cfg (Priority e) (Depth e))
    by (intros i w e Hi He; apply Hway; right; right; eauto).
  assert (Hsame : forall s1 : State,
            nextURLs s1 = nextURLs s -> urlQueue s1 = urlQueue s ->
            pool s1 = pool s ->
            forall e, facts.onTheWay s1 e ->
                      facts.bounded cfg (Priority e) (Depth e)).
  { intros s1 E1 E2 E3 e He. apply Hway. unfold facts.onTheWay in *.
    now rewrite E1, E2, E3 in He. }
  destruct Hstep as
    [s batch Hempty Hget
    | s e rest Hn Hdepth Hlen
    | s e rest Hn Hdepth
    | s i e rest Hi Hq
    | s i e Hi Hcrawled Hlen
    | s i e Hi Hcrawled
    | s i e fetched now elapsed result dd Hi Hafter Hlen
    | s i e Hi
    | s now result rest Hresults];
    unfold facts.boundsInvariant.
  - (* tick *)
    split; [exact Hdb |]. split; [| exact Hres].
    intros e [He | [He | He]]; simpl in He.
    + destruct (GetNextURLs_elem _ _ _ _ Hget He)
        as (row & Hrow & _ & Hp & Hd & _).
      rewrite Hp, Hd. exact (Hdb _ _ Hrow).
    + now apply Hqueue.
    + destruct He as (i & w & Hi & He). exact (Hpool _ _ _ Hi He).
  - (* offer *)
    split; [exact Hdb |]. split; [| exact Hres].
    rewrite Hn in Hnext.
    intros e' [He | [He | He]]; simpl in He.
    + apply Hnext. now apply list_elem_of_further.
    + apply elem_of_app in He as [He | He]; [now apply Hqueue |].
      apply list_elem_of_singleton in He as ->.
      apply Hnext, list_elem_of_here.
    + destruct He as (i & w & Hi & He). exact (Hpool _ _ _ Hi He).
  - (* pass *)
    split; [exact Hdb |]. split; [| exact Hres].
    rewrite Hn in Hnext.
    intros e' [He | [He | He]]; simpl in He.
    + apply Hnext. now apply list_elem_of_further.
    + now apply Hqueue.
    + destruct He as (i & w & Hi & He). exact (Hpool _ _ _ Hi He).
  - (* receive *)
    split; [exact Hdb |]. split; [| exact Hres].
    rewrite Hq in Hqueue.
    apply onTheWay_insert; try assumption.
    + intros e' He'. apply Hqueue. now apply list_elem_of_further.
    + intros e' [= <-]. apply Hqueue, list_elem_of_here.
  - (* skip *)
    split; [exact Hdb |]. split.
    + intros e' [He | [He | (j & w & Hj & He)]]; simpl in *.
      * now apply Hnext.
      * now apply Hqueue.
      * apply list_lookup_insert_Some in Hj as [(_ & <- & _) | (_ & Hj)].
        -- injection He as <-. exact (Hpool _ _ _ Hi eq_refl).
        -- exact (Hpool _ _ _ Hj He).
    + intros r link Hr Hlink. simpl in Hr.
      apply elem_of_app in Hr as [Hr | Hr]; [exact (Hres _ _ Hr Hlink) |].
      apply list_elem_of_singleton in Hr as ->. inversion Hlink.
  - (* request *)
    split; [exact Hdb |]. split; [| exact Hres].
    intros e' [He | [He | (j & w & Hj & He)]]; simpl in *.
    + now apply Hnext.
    + now apply Hqueue.
    + apply list_lookup_insert_Some in Hj as [(_ & <- & _) | (_ & Hj)].
      * injection He as <-. exact (Hpool _ _ _ Hi eq_refl).
      * exact (Hpool _ _ _ Hj He).
  - (* response *)
    split; [exact Hdb |]. split.
    + intros e' [He | [He | (j & w & Hj & He)]]; simpl in *.
      * now apply Hnext.
      * now apply Hqueue.
      * apply list_lookup_insert_Some in Hj as [(_ & <- & _) | (_ & Hj)].
        -- injection He as <-. exact (Hpool _ _ _ Hi eq_refl).
        -- exact (Hpool _ _ _ Hj He).
    + intros r link Hr Hlink. simpl in Hr.
      apply elem_of_app in Hr as [Hr | Hr]; [exact (Hres _ _ Hr Hlink) |].
      apply list_elem_of_singleton in Hr as ->.
      destruct (afterRequest_links _ _ _ _ _ _ _ _ Hafter Hlink)
        as (doc & pageContext & Hin).
      apply extractSmartLinks_elem in Hin as (n & _ & Hlk).
      apply linkOf_Some in Hlk as (_ & _ & Hd & _ & Hp).
      destruct (Hhand _ _ _ Hi eq_refl) as (Hint & Hmax).
      split.
      * rewrite Hp, calculateLinkPriority_clamp. lia.
      * rewrite Hd, (add_one_int4 _ Hint). lia.
  - (* mark *)
    split; [now apply MarkURLProcessed_bounded |]. split; [| exact Hres].
    intros e' [He | [He | (j & w & Hj & He)]]; simpl in *.
    + now apply Hnext.
    + now apply Hqueue.
    + apply list_lookup_insert_Some in Hj as [(_ & <- & _) | (_ & Hj)].
      * discriminate.
      * exact (Hpool _ _ _ Hj He).
  - (* process *)
    rewrite Hresults in Hres.
    destruct (processSmartResult now (db s) (stats s) result) as [d st] eqn:Hp.
    simpl. split.
    + change d with (fst (d, st)). rewrite <- Hp.
      apply processSmartResult_bounded; [exact Hdb |].
      intros link Hlink. exact (Hres _ _ (list_elem_of_here _ _) Hlink).
    + split.
      * intros e He. apply Hway. exact He.
      * intros r link Hr. apply Hres. now apply list_elem_of_further.
Qed.

Lemma start_boundsInvariant now db0 :
  0 <= maxDepth cfg -> facts.boundedQueue cfg db0 ->
  facts.boundsInvariant cfg (start cfg now db0).
Proof.
  intros Hmax Hdb0. unfold facts.boundsInvariant.
  assert (Hseed : facts.bounded cfg (Priority (initialURL cfg))
                    (Depth (initialURL cfg)))
    by (unfold facts.bounded; simpl; lia).
  split.
  { apply (AddToQueue_bounded cfg now db0 [initialURL cfg] Hdb0).
    intros e He. now apply list_elem_of_singleton in He as ->. }
  split.
  - intros e [He | [He | (i & w & Hi & He)]]; simpl in *.
    + inversion He.
    + now apply list_elem_of_singleton in He as ->.
    + apply list_elem_of_lookup_2, elem_of_replicate_inv in Hi as ->.
      discriminate.
  - intros r link Hr. inversion Hr.
Qed.

End CrawlInvariants.

(** X13. The bounds of the data model hold all through a crawl: when the
    queue table starts with priorities between 1 and 100, depths of type
    INTEGER and at most [maxDepth] + 1, and [maxDepth] is at least 0, then
    in every state the crawl reaches every row of the queue and every
    entry on its way to a worker or in the hand of one has a priority
    between 1 and 100, and no row is deeper than [maxDepth] + 1. *)
Theorem crawl_keeps_bounds `{url.Package} `{md5.Package} `{goquery.Parser}
    (cfg : Config) (now : Z) (db0 : database.PostgresDB) (s : State) :
  0 <= maxDepth cfg ->
  spec.integerDepths db0 ->
  facts.boundedQueue cfg db0 ->
  reachable cfg (start cfg now db0) s ->
  facts.boundedQueue cfg (db s) /\
  forall e, facts.onTheWay s e -> 1 <= Priority e <= 100.
Proof.
  intros Hmax Hint Hdb0 Hreach.
  assert (Hboth : spec.depthInvariant cfg s /\ facts.boundsInvariant cfg s).
  { induction Hreach as [| s s' _ IH Hstep].
    - split; [now apply start_depthInvariant | now apply start_boundsInvariant].
    - destruct IH as (Hd & Hb). split.
      + exact (step_depthInvariant cfg _ _ Hstep Hd).
      + exact (step_boundsInvariant cfg _ _ Hstep Hd Hb). }
  destruct Hboth as (_ & Hdb & Hway & _).
  split; [exact Hdb |]. intros e He. exact (proj1 (Hway e He)).
Qed.

Lemma crawl_keeps_bounds_witness :
  facts.boundedQueue (sample.config 3) (db (sample.received 3)) /\
  forall e, facts.onTheWay (sample.received 3) e -> 1 <= Priority e <= 100.
Proof.
  apply (crawl_keeps_bounds (H := sample.net_url) (H0 := sample.digest)
           (H1 := sample.parser) (sample.config 3) 0 sample.emptyDB
           (sample.received 3)).
  - vm_compute. discriminate.
  - intros url row Hrow. simpl in Hrow. rewrite lookup_empty in Hrow.
    discriminate.
  - intros url row Hrow. simpl in Hrow. rewrite lookup_empty in Hrow.
    discriminate.
  - eapply reachable_step; [apply reachable_start |].
    apply (step_receive (H := sample.net_url) (H0 := sample.digest)
             (H1 := sample.parser) (sample.config 3)
             (start (sample.config 3) 0 sample.emptyDB) 0
             (initialURL (sample.config 3)) []); reflexivity.
Defined.

Lemma AddToQueue_keeps now p urls url :
  is_Some (database.crawl_queue p !! url) ->
  is_Some (database.crawl_queue (fst (database.AddToQueue now p urls)) !! url).
Proof.
  unfold database.AddToQueue. intros [row Hrow].
  destruct (database.execAll now (database.crawl_queue p) urls) as [err | q']
    eqn:Hex; simpl; [now exists row |].
  rewrite (execAll_present _ _ _ _ _ _ Hex Hrow). now eexists.
Qed.

Lemma processSmartResult_keeps now p st result :
  (forall url,
     is_Some (database.crawl_queue p !! url) ->
     is_Some (database.crawl_queue
                (fst (processSmartResult now p st result)) !! url)) /\
  (forall url,
     database.IsURLCrawled p url = true ->
     database.IsURLCrawled (fst (processSmartResult now p st result)) url
       = true).
Proof.
  unfold processSmartResult.
  destruct (Error result); [now split |].
  destruct (Skipped result); [now split |].
  destruct (ResultPage result) as [page |]; [| now split].
  assert (Hpages : forall url,
            database.IsURLCrawled p url = true ->
            database.IsURLCrawled (database.SavePage p page) url = true).
  { intros url. unfold database.IsURLCrawled, database.SavePage. simpl.
    destruct (decide (PageURL page = url)) as [<- | Hne].
    - now rewrite lookup_insert_eq.
    - now rewrite lookup_insert_ne. }
  simpl. destruct (0 <? Z.of_nat (List.length (Links result))); split;
    try assumption; try (now intros).
  - intros url Hq. now apply AddToQueue_keeps.
  - intros url Hc. unfold database.IsURLCrawled, database.AddToQueue.
    destruct (database.execAll _ _ _); simpl; now apply Hpages.
Qed.

Lemma afterRequest_detector `{url.Package} `{md5.Package} `{goquery.Parser}
    e fetched now elapsed dd result dd' :
  mutex dd = sync.unlocked ->
  afterRequest e fetched now elapsed dd = Some (result, dd') ->
  mutex dd' = sync.unlocked /\
  forall hash, seen dd hash = true -> seen dd' hash = true.
Proof.
  intros Hm. unfold afterRequest.
  destruct fetched as [| statusCode contentType body];
    [intros [= _ <-]; auto |].
  destruct (isRelevantContent contentType); simpl;
    [| intros [= _ <-]; auto].
  destruct body as [body |]; [| intros [= _ <-]; auto].
  unfold bind. rewrite (IsDuplicate_unlocked dd _ Hm).
  destruct (seen dd (md5.SumHex body)) eqn:Hseen; [intros [= _ <-]; auto |].
  assert (Hkeep : forall hash, seen dd hash = true ->
            seen (recorded dd (md5.SumHex body)) hash = true)
    by (intros hash Hs; rewrite seen_recorded, Hs; apply orb_true_r).
  destruct (goquery.NewDocumentFromReader body); intros [= _ <-]; auto.
Qed.

Section CrawlKeeps.
Context `{url.Package} `{md5.Package} `{goquery.Parser}.
Variable cfg : Config.

Lemma step_keeps s s' :
  step cfg s s' ->
  mutex (detector s) = sync.unlocked ->
  mutex (detector s') = sync.unlocked /\ facts.keeps s s'.
Proof.
  intros Hstep Hm. unfold facts.keeps.
  destruct Hstep as
    [s batch Hempty Hget
    | s e rest Hn Hdepth Hlen
    | s e rest Hn Hdepth
    | s i e rest Hi Hq
    | s i e Hi Hcrawled Hlen
    | s i e Hi Hcrawled
    | s i e fetched now elapsed result dd Hi Hafter Hlen
    | s i e Hi
    | s now result rest Hresults];
    simpl; rewrite ?length_insert; try solve [repeat split; auto].
  - (* response *)
    destruct (afterRequest_detector _ _ _ _ _ _ _ Hm Hafter) as (Hm' & Hseen).
    repeat split; auto.
  - (* mark *)
    repeat split; auto.
    intros url [row Hrow]. rewrite lookup_alter.
    destruct (decide (URL e = url)) as [<- | Hne];
      [rewrite Hrow | rewrite Hrow]; now eexists.
  - (* process *)
    destruct (processSmartResult now (db s) (stats s) result) as [d st] eqn:Hp.
    simpl. change d with (fst (d, st)). rewrite <- Hp.
    destruct (processSmartResult_keeps now (db s) (stats s) result)
      as (Hq & Hc).
    repeat split; auto.
Qed.

Lemma reachable_keeps s0 s :
  reachable cfg s0 s ->
  mutex (detector s0) = sync.unlocked ->
  mutex (detector s) = sync.unlocked /\ facts.keeps s0 s.
Proof.
  induction 1 as [| s s' _ IH Hstep]; intros Hm.
  - split; [exact Hm |]. unfold facts.keeps. repeat split; auto.
  - destruct (IH Hm) as (Hms & Hq & Hc & Hs & Hl).
    destruct (step_keeps _ _ Hstep Hms) as (Hms' & Hq' & Hc' & Hs' & Hl').
    split; [exact Hms' |]. unfold facts.keeps.
    repeat split; [auto | auto | auto | congruence].
Qed.



End CrawlKeeps.

(** X14. A crawl loses nothing: from any state whose detector is free, in
    every state reached later each URL of the queue table is still in the
    queue table, each crawled URL still counts as crawled, each recorded
    hash is still recorded, and the number of workers is the same. *)
Theorem crawl_loses_nothing `{url.Package} `{md5.Package} `{goquery.Parser}
    (cfg : Config) (s0 s : State) :
  mutex (detector s0) = sync.unlocked ->
  reachable cfg s0 s ->
  facts.keeps s0 s.
Proof.
  intros Hm Hreach. exact (proj2 (reachable_keeps cfg _ _ Hreach Hm)).
Qed.

Lemma crawl_loses_nothing_witness :
  facts.keeps (start (sample.config 3) 0 sample.emptyDB) (sample.received 3).
Proof.
  apply (crawl_loses_nothing (H := sample.net_url) (H0 := sample.digest)
           (H1 := sample.parser) (sample.config 3)).
  - reflexivity.
  - eapply reachable_step; [apply reachable_start |].
    apply (step_receive (H := sample.net_url) (H0 := sample.digest)
             (H1 := sample.parser) (sample.config 3)
             (start (sample.config 3) 0 sample.emptyDB) 0
             (initialURL (sample.config 3)) []); reflexivity.
Defined.



(** ** Interleaved calls of the duplicate detector *)

Lemma count_insert (f : Point -> bool) (cs : Callers) : forall i hash pt pt',
  cs !! i = Some (hash, pt) ->
  (facts.count f (<[i := (hash, pt')]> cs) + (if f pt then 1 else 0) =
   facts.count f cs + (if f pt' then 1 else 0))%nat.
Proof.
  induction cs as [| [h p] rest IH]; intros i hash pt pt' Hi;
    [destruct i; discriminate |].
  destruct i as [| i].
  - injection Hi as -> ->. simpl. destruct (f pt), (f pt'); lia.
  - change (<[S i := (hash, pt')]> ((h, p) :: rest))
      with ((h, p) :: <[i := (hash, pt')]> rest).
    change (rest !! i = Some (hash, pt)) in Hi.
    pose proof (IH i hash pt pt' Hi). simpl. unfold Callers in *.
    destruct (f p), (f pt), (f pt'); lia.
Qed.

Lemma count_elem (f : Point -> bool) (cs : Callers) : forall i hash pt,
  cs !! i = Some (hash, pt) -> f pt = true -> (1 <= facts.count f cs)%nat.
Proof.
  induction cs as [| [h p] rest IH]; intros i hash pt Hi Hf;
    [destruct i; discriminate |].
  destruct i as [| i].
  - injection Hi as -> ->. simpl. rewrite Hf. lia.
  - change (rest !! i = Some (hash, pt)) in Hi.
    pose proof (IH i hash pt Hi Hf). simpl. destruct (f p); lia.
Qed.

Lemma count_fresh (f : Point -> bool) (cs : Callers) :
  facts.fresh cs -> f AtRLock = false -> facts.count f cs = 0%nat.
Proof.
  intros Hfresh Hf. induction Hfresh as [| [h p] rest Hp _ IH];
    [reflexivity |].
  simpl in *. subst p. now rewrite Hf, IH.
Qed.

Lemma stepAt_inv i cs dd cs' dd' :
  stepAt i cs dd = Some (cs', dd') ->
  exists hash pt pt',
    cs !! i = Some (hash, pt) /\
    stepCaller hash pt dd = Some (pt', dd') /\
    cs' = <[i := (hash, pt')]> cs.
Proof.
  unfold stepAt. destruct (cs !! i) as [[hash pt] |]; [| discriminate].
  destruct (stepCaller hash pt dd) as [[pt' dd1] |] eqn:Hstep;
    [| discriminate].
  intros [= <- <-]. eauto 6.
Qed.

(** One statement keeps the count of the mutex. *)
Lemma stepCaller_lock i cs dd hash pt pt' dd' :
  cs !! i = Some (hash, pt) ->
  stepCaller hash pt dd = Some (pt', dd') ->
  facts.lockInvariant cs dd ->
  facts.lockInvariant (<[i := (hash, pt')]> cs) dd'.
Proof.
  intros Hi Hstep (Hr & Hw). unfold facts.lockInvariant.
  pose proof (count_insert facts.holdsRead cs i hash pt pt' Hi) as Cr.
  pose proof (count_insert facts.holdsWrite cs i hash pt pt' Hi) as Cw.
  pose proof (fun H => count_elem facts.holdsRead cs i hash pt Hi H) as Er.
  pose proof (fun H => count_elem facts.holdsWrite cs i hash pt Hi H) as Ew.
  unfold Callers in *.
  destruct dd as [hashes [readers writer]].
  destruct pt; simpl in Hstep; unfold next, onMutex, store, recorded in Hstep;
    simpl in *;
    try (destruct writer; simpl in Hstep; try discriminate);
    try (destruct readers; simpl in Hstep; try discriminate);
    try (destruct (seen _ hash));
    injection Hstep as <- <-; simpl in *;
    try specialize (Er eq_refl); try specialize (Ew eq_refl);
    try split; try split; lia.
Qed.

(** One statement keeps what is recorded, and what the callers know. *)
Lemma stepCaller_seen hash pt dd pt' dd' (dd0 : DuplicateDetector) :
  stepCaller hash pt dd = Some (pt', dd') ->
  (forall h, seen dd h = true -> seen dd' h = true) /\
  ((facts.afterRecord pt = true -> seen dd hash = true) ->
   facts.afterRecord pt' = true -> seen dd' hash = true) /\
  ((seen dd0 hash = true -> seen dd hash = true) ->
   (facts.foundMissing pt = true -> seen dd0 hash = false) ->
   facts.foundMissing pt' = true -> seen dd0 hash = false).
Proof.
  intros Hstep.
  assert (Hins : forall (hashes : gmap string bool) h,
            default false (hashes !! h) = true ->
            default false (<[hash := true]> hashes !! h) = true).
  { intros hashes h Hh. destruct (decide (hash = h)) as [<- | Hne].
    - now rewrite lookup_insert_eq.
    - now rewrite lookup_insert_ne. }
  destruct (seen dd0 hash) eqn:H0.
  - destruct dd as [hashes [readers writer]].
    destruct pt; simpl in Hstep;
      unfold next, onMutex, store, recorded in Hstep; simpl in Hstep;
      try (destruct writer; simpl in Hstep; try discriminate);
      try (destruct readers; simpl in Hstep; try discriminate);
      try (destruct (seen _ hash) eqn:Hs);
      try discriminate;
      injection Hstep as <- <-;
      unfold seen in *; simpl in *;
      rewrite ?lookup_insert_eq;
      repeat split; intros; auto; try discriminate;
      try solve [intuition (try discriminate; auto; congruence)].
  - destruct dd as [hashes [readers writer]].
    destruct pt; simpl in Hstep;
      unfold next, onMutex, store, recorded in Hstep; simpl in Hstep;
      try (destruct writer; simpl in Hstep; try discriminate);
      try (destruct readers; simpl in Hstep; try discriminate);
      try (destruct (seen _ hash) eqn:Hs);
      try discriminate;
      injection Hstep as <- <-;
      unfold seen in *; simpl in *;
      rewrite ?lookup_insert_eq;
      repeat split; intros; auto; try discriminate;
      try solve [intuition (try discriminate; auto; congruence)].
Qed.

Lemma stepAt_record dd0 i cs dd cs' dd' :
  stepAt i cs dd = Some (cs', dd') ->
  facts.recordInvariant dd0 cs dd -> facts.recordInvariant dd0 cs' dd'.
Proof.
  intros Hstep (Hkeep & Hknow).
  destruct (stepAt_inv _ _ _ _ _ Hstep) as (hash & pt & pt' & Hi & Hc & ->).
  destruct (stepCaller_seen _ _ _ _ _ dd0 Hc) as (Hmono & Hafter & Hmiss).
  destruct (Hknow i hash pt Hi) as (Ha & Hm).
  split; [intros h Hh; apply Hmono, Hkeep, Hh |].
  intros j hash1 pt1 Hj.
  apply list_lookup_insert_Some in Hj as [(<- & [= <- <-] & _) | (_ & Hj)].
  - split; [exact (Hafter Ha) | exact (Hmiss (Hkeep hash) Hm)].
  - destruct (Hknow j hash1 pt1 Hj) as (Ha1 & Hm1).
    split; [intros Hp; apply Hmono, Ha1, Hp | exact Hm1].
Qed.

Lemma fresh_record cs dd :
  facts.fresh cs -> facts.recordInvariant dd cs dd.
Proof.
  intros Hfresh. split; [auto |]. intros i hash pt Hi.
  pose proof (Forall_lookup_1 _ _ _ _ Hfresh Hi) as Hpt. simpl in Hpt.
  subst pt. split; discriminate.
Qed.

Lemma runSchedule_record dd0 schedule : forall cs dd cs' dd',
  facts.recordInvariant dd0 cs dd ->
  runSchedule schedule cs dd = Some (cs', dd') ->
  facts.recordInvariant dd0 cs' dd'.
Proof.
  induction schedule as [| i rest IH]; simpl; intros cs dd cs' dd' Hinv Hrun.
  - now injection Hrun as <- <-.
  - destruct (stepAt i cs dd) as [[cs1 dd1] |] eqn:Hstep; [| discriminate].
    exact (IH _ _ _ _ (stepAt_record _ _ _ _ _ _ Hstep Hinv) Hrun).
Qed.

(** X16. However the statements of concurrent calls of [IsDuplicate]
    interleave, nothing recorded is lost, the hash of every call that has
    returned is recorded, and a call on a hash that was recorded before the
    calls began answers [true]: the race of the function can give [false]
    twice for a new hash, never [false] for a known one. *)
Theorem IsDuplicate_interleaved (schedule : list nat) (cs cs' : Callers)
    (dd dd' : DuplicateDetector) :
  facts.fresh cs ->
  runSchedule schedule cs dd = Some (cs', dd') ->
  (forall hash, seen dd hash = true -> seen dd' hash = true) /\
  (forall i hash answer,
     cs' !! i = Some (hash, Returned answer) ->
     seen dd' hash = true /\ (seen dd hash = true -> answer = true)).
Proof.
  intros Hfresh Hrun.
  destruct (runSchedule_record dd schedule cs dd cs' dd'
              (fresh_record cs dd Hfresh) Hrun) as (Hkeep & Hknow).
  split; [exact Hkeep |]. intros i hash answer Hi.
  destruct (Hknow i hash _ Hi) as (Ha & Hm).
  split; [exact (Ha eq_refl) |].
  intros Hseen. destruct answer; [reflexivity |].
  specialize (Hm eq_refl). congruence.
Qed.

Lemma IsDuplicate_interleaved_witness :
  let cs := [("h", AtRLock); ("h", AtRLock); ("k", AtRLock)] in
  let dd := recorded NewDuplicateDetector "k" in
  exists cs' dd',
    runSchedule [0; 0; 1; 1; 2; 2; 2; 0; 1; 0; 0; 0; 0; 0; 1; 1; 1; 1; 1]%nat
      cs dd = Some (cs', dd') /\
    cs' = [("h", Returned false); ("h", Returned false);
           ("k", Returned true)] /\
    (forall hash, seen dd hash = true -> seen dd' hash = true) /\
    (forall i hash answer,
       cs' !! i = Some (hash, Returned answer) ->
       seen dd' hash = true /\ (seen dd hash = true -> answer = true)).
Proof.
  intros cs dd.
  destruct (runSchedule
              [0; 0; 1; 1; 2; 2; 2; 0; 1; 0; 0; 0; 0; 0; 1; 1; 1; 1; 1]%nat
              cs dd) as [[cs' dd'] |] eqn:Hrun; [| vm_compute in Hrun; discriminate].
  exists cs', dd'. split; [reflexivity |].
  split; [vm_compute in Hrun; now injection Hrun as <- _ |].
  refine (IsDuplicate_interleaved _ cs cs' dd dd' _ Hrun).
  repeat constructor.
Defined.

(** ** The mutex of the detector *)

Lemma fresh_lock cs dd :
  facts.fresh cs -> mutex dd = sync.unlocked -> facts.lockInvariant cs dd.
Proof.
  intros Hfresh Hm. unfold facts.lockInvariant. rewrite Hm. simpl.
  rewrite !(count_fresh _ cs Hfresh) by reflexivity. auto.
Qed.

Lemma runSchedule_lock schedule : forall cs dd cs' dd',
  facts.lockInvariant cs dd ->
  runSchedule schedule cs dd = Some (cs', dd') ->
  facts.lockInvariant cs' dd'.
Proof.
  induction schedule as [| i rest IH]; simpl; intros cs dd cs' dd' Hinv Hrun.
  - now injection Hrun as <- <-.
  - destruct (stepAt i cs dd) as [[cs1 dd1] |] eqn:Hstep; [| discriminate].
    destruct (stepAt_inv _ _ _ _ _ Hstep) as (hash & pt & pt' & Hi & Hc & ->).
    exact (IH _ _ _ _ (stepCaller_lock _ _ _ _ _ _ _ Hi Hc Hinv) Hrun).
Qed.

(** A caller that holds the mutex can run its next statement. *)
Lemma holder_steps i cs dd hash pt :
  facts.lockInvariant cs dd ->
  cs !! i = Some (hash, pt) ->
  facts.holdsRead pt || facts.holdsWrite pt = true ->
  is_Some (stepCaller hash pt dd).
Proof.
  intros (Hr & Hw) Hi Hheld.
  pose proof (fun H => count_elem facts.holdsRead cs i hash pt Hi H) as Er.
  pose proof (fun H => count_elem facts.holdsWrite cs i hash pt Hi H) as Ew.
  unfold Callers in *.
  destruct dd as [hashes [readers writer]]. simpl in *.
  destruct pt; try discriminate; simpl;
    unfold next, onMutex, store, sync.RUnlock, sync.Unlock; simpl;
    try specialize (Er eq_refl); try specialize (Ew eq_refl);
    try (destruct readers; [lia |]);
    try (destruct writer; [| lia]);
    eauto.
Qed.



(** X17. From callers about to start and a free mutex, whatever the
    schedule: at most one caller is between [Lock] and [Unlock], and then
    no caller is between [RLock] and [RUnlock]; and a caller whose next
    statement cannot run holds neither lock, so that it waits at [RLock]
    or [Lock] or has returned: no [RUnlock] or [Unlock] finds the mutex
    not held. *)
Theorem IsDuplicate_lock_discipline (schedule : list nat) (cs cs' : Callers)
    (dd dd' : DuplicateDetector) :
  facts.fresh cs ->
  mutex dd = sync.unlocked ->
  runSchedule schedule cs dd = Some (cs', dd') ->
  (facts.count facts.holdsWrite cs' <= 1)%nat /\
  (facts.count facts.holdsWrite cs' = 1%nat ->
   facts.count facts.holdsRead cs' = 0%nat) /\
  (forall i hash pt,
     cs' !! i = Some (hash, pt) ->
     stepCaller hash pt dd' = None ->
     facts.holdsRead pt = false /\ facts.holdsWrite pt = false).
Proof.
  intros Hfresh Hm Hrun.
  pose proof (runSchedule_lock schedule cs dd cs' dd'
                (fresh_lock cs dd Hfresh Hm) Hrun) as Hinv.
  assert (Hcount := Hinv). destruct Hcount as (Hr & Hw).
  unfold Callers in *.
  split; [destruct (sync.writer (mutex dd')); lia |].
  split; [destruct (sync.writer (mutex dd')); lia |].
  intros i hash pt Hi Hnone.
  destruct (facts.holdsRead pt || facts.holdsWrite pt) eqn:Hheld.
  - destruct (holder_steps i cs' dd' hash pt Hinv Hi Hheld) as (r & Hs).
    congruence.
  - now apply orb_false_elim in Hheld.
Qed.

Lemma IsDuplicate_lock_discipline_witness :
  let cs := [("h", AtRLock); ("h", AtRLock)] in
  exists cs' dd',
    runSchedule [0; 0; 1; 1; 0; 1; 0; 0]%nat cs NewDuplicateDetector =
    Some (cs', dd') /\
    cs' = [("h", AtUnlock); ("h", AtLock)] /\
    stepCaller "h" AtLock dd' = None /\
    (facts.count facts.holdsWrite cs' <= 1)%nat /\
    (facts.count facts.holdsWrite cs' = 1%nat ->
     facts.count facts.holdsRead cs' = 0%nat) /\
    (forall i hash pt,
       cs' !! i = Some (hash, pt) ->
       stepCaller hash pt dd' = None ->
       facts.holdsRead pt = false /\ facts.holdsWrite pt = false).
Proof.
  intros cs.
  destruct (runSchedule [0; 0; 1; 1; 0; 1; 0; 0]%nat cs NewDuplicateDetector)
    as [[cs' dd'] |] eqn:Hrun; [| vm_compute in Hrun; discriminate].
  exists cs', dd'. split; [reflexivity |].
  split; [vm_compute in Hrun; now injection Hrun as <- _ |].
  split; [vm_compute in Hrun; now injection Hrun as _ <- |].
  refine (IsDuplicate_lock_discipline _ cs cs' NewDuplicateDetector dd'
            _ eq_refl Hrun).
  repeat constructor.
Defined.


